(** * ObjectHandler controller: a shallow embedding

    Source: [controllers/status/objecthandler_controller.go].

    The reconciler talks to three collaborators whose code lives outside
    the controller: the object repository (client Get / List / Patch), the
    controller runtime (Watch) and the handler strategies (Build..., Handle).
    They are kept abstract: every call takes the current [World] and gives
    back the next one together with its Go result, so that any behaviour a
    real cluster can show between two calls is an instance.  The reconciler's
    own state (the [watchedKinds] map) and the instance being reconciled are
    modelled concretely.  A ghost [trace] records each call to a collaborator
    with its outcome; the code under study never reads it. *)

From stdpp Require Import base option list strings gmap pretty.
From Stdlib Require Import ZArith.

Set Default Proof Using "Type".
Local Open Scope string_scope.
Local Open Scope list_scope.

(** ** Go values *)

(** An [error] returned by a collaborator or by [fmt.Errorf]: the text of
    its [Error()] method and whether [apierrors.IsNotFound] holds of it. *)
Record PlainError := mkPlainError {
  perr_msg : string;
  perr_notfound : bool }.

Definition Errorf (msg : string) : PlainError :=
  {| perr_msg := msg; perr_notfound := false |}.

(** What a Go function of type [error] hands back in this controller: a
    collaborator's error as it is, or the [*multierror.Error] that
    [doReconcile] builds. *)
Inductive error :=
| Plain (e : PlainError)
| Multi (Errors : list PlainError).

Definition LF : string := String (Ascii.ascii_of_nat 10) EmptyString.
Definition TAB : string := String (Ascii.ascii_of_nat 9) EmptyString.

Fixpoint join (sep : string) (l : list string) : string :=
  match l with
  | [] => ""
  | [x] => x
  | x :: rest => x +:+ sep +:+ join sep rest
  end.

(** [multierror.ListFormatFunc], the default [ErrorFormat]. *)
Definition ListFormatFunc (es : list PlainError) : string :=
  match es with
  | [e] => "1 error occurred:" +:+ LF +:+ TAB +:+ "* " +:+ perr_msg e +:+ LF +:+ LF
  | _ =>
    let points := map (fun e => "* " +:+ perr_msg e) es in
    pretty (length es) +:+ " errors occurred:" +:+ LF +:+ TAB
      +:+ join (LF +:+ TAB) points +:+ LF +:+ LF
  end.

Definition Error (e : error) : string :=
  match e with
  | Plain p => perr_msg p
  | Multi es => ListFormatFunc es
  end.

(** [multierror.Append(errs, err)] for a non-nil [err] that is not itself a
    multierror; the nil [*multierror.Error] is the empty list. *)
Definition Append (errs : list PlainError) (err : PlainError) : list PlainError :=
  errs ++ [err].

(** [errs.ErrorOrNil()] *)
Definition ErrorOrNil (errs : list PlainError) : option error :=
  match errs with
  | [] => None
  | _ => Some (Multi errs)
  end.

Inductive result (A : Type) :=
| Ok (a : A)
| Err (e : PlainError).
Arguments Ok {A} a.
Arguments Err {A} e.

(** [schema.GroupVersionKind] *)
Record GroupVersionKind := mkGVK {
  Group : string;
  Version : string;
  Kind : string }.

Global Instance GroupVersionKind_eq_dec : EqDecision GroupVersionKind.
Proof. solve_decision. Defined.

Global Instance GroupVersionKind_countable : Countable GroupVersionKind.
Proof.
  refine (inj_countable' (fun g => (Group g, Version g, Kind g))
            (fun t => mkGVK t.1.1 t.1.2 t.2) _).
  by intros [].
Defined.

(** [types.NamespacedName] *)
Record NamespacedName := mkNamespacedName {
  nn_Namespace : string;
  nn_Name : string }.

(** [ctrl.Result]; durations are [int64] nanoseconds. *)
Record Result := mkResult {
  Requeue : bool;
  RequeueAfter : Z }.

Definition emptyResult : Result := {| Requeue := false; RequeueAfter := 0 |}.

(** [reconcile.Request] *)
Definition Request := NamespacedName.

(** [metav1.Condition]; [Status] is a string type in Go.  The
    [LastTransitionTime] stamp, which the controller never reads, is left
    out. *)
Record Condition := mkCondition {
  cond_Type : string;
  cond_Status : string;
  cond_ObservedGeneration : Z;
  cond_Reason : string;
  cond_Message : string }.

Definition ConditionTrue : string := "True".
Definition ConditionFalse : string := "False".

(** [apimeta.FindStatusCondition] *)
Definition FindStatusCondition (conditions : list Condition) (conditionType : string)
  : option Condition :=
  snd <$> list_find (fun c => cond_Type c = conditionType) conditions.

(** [apimeta.SetStatusCondition]: the first condition of the new condition's
    type is overwritten in place (status, reason, message, observed
    generation), and the new condition is appended when there is none. *)
Definition SetStatusCondition (conditions : list Condition) (newCondition : Condition)
  : list Condition :=
  match list_find (fun c => cond_Type c = cond_Type newCondition) conditions with
  | None => conditions ++ [newCondition]
  | Some (i, existing) =>
    <[i := {| cond_Type := cond_Type existing;
              cond_Status := cond_Status newCondition;
              cond_ObservedGeneration := cond_ObservedGeneration newCondition;
              cond_Reason := cond_Reason newCondition;
              cond_Message := cond_Message newCondition |}]> conditions
  end.

(** ** The API types of the custom resource

    The Go declarations of [ObjectHandler] and of the handler package are
    not part of the controller file.  The records below carry the fields
    the controller reads or writes; what it only passes along is a field of
    an abstract type. *)
Class Types := {
  (** everything outside the reconciler: cluster objects, caches, the
      review system the handlers talk to *)
  World : Type;
  (** [unstructured.Unstructured] *)
  Object : Type;
  (** [handlers.Handler] *)
  Reporter : Type;
  (** [*spec.PullRequestComment] and [*spec.PullRequestApprove] *)
  PullRequestCommentSpec : Type;
  PullRequestApproveSpec : Type;
  (** the part of [spec.forObject] that names the kind *)
  TypeRef : Type;
  (** the fields of a handler status record besides [key] and [error],
      with their zero value *)
  StatusDetail : Type;
  zeroDetail : StatusDetail }.

Section Model.
Context {T : Types}.

(** Modelled from the spec: the declaration of [spec.forObject] is not in
    the controller file.  Section 6 gives it as group, version, kind, name
    and namespace; the controller reads [Name] and [Namespace] and gets the
    kind through [GroupVersionKind()], so the fields that name the kind are
    one field of abstract type here. *)
Record ObjectRef := mkObjectRef {
  ref_Type : TypeRef;
  ref_Name : string;
  ref_Namespace : string }.

(** Modelled from the spec: a handler specification has one optional
    field per handler kind (section 3, "mutually-exclusive handler-kind
    fields"); the two the controller looks at are nil-able pointers. *)
Record HandlerSpec := mkHandlerSpec {
  PullRequestComment : option PullRequestCommentSpec;
  PullRequestApprove : option PullRequestApproveSpec }.

(** Modelled from the spec: a status record is [{key, error}] (section 3);
    whatever else a handler keeps in it is [hs_Detail].  The status list
    holds pointers to such records, none shared and none nil: a record is
    updated in place, by its index. *)
Record HandlerStatus := mkHandlerStatus {
  hs_Key : string;
  hs_Error : string;
  hs_Detail : StatusDetail }.

(** Modelled from the spec: [spec.forObject], [spec.handlers] and
    [spec.interval], [status.conditions] and [status.handlerStatus], and of
    the object metadata the namespace, name and generation (section 6). *)
Record ObjectHandlerSpec := mkObjectHandlerSpec {
  spec_Interval : Z;
  spec_ForObject : ObjectRef;
  spec_Handlers : list HandlerSpec }.

Record ObjectHandlerStatus := mkObjectHandlerStatus {
  status_Conditions : list Condition;
  status_HandlerStatus : list HandlerStatus }.

Record ObjectHandler := mkObjectHandler {
  oh_Namespace : string;
  oh_Name : string;
  oh_Generation : Z;
  oh_Spec : ObjectHandlerSpec;
  oh_Status : ObjectHandlerStatus }.

Definition set_HandlerStatus (sr : ObjectHandler) (l : list HandlerStatus) : ObjectHandler :=
  {| oh_Namespace := oh_Namespace sr;
     oh_Name := oh_Name sr;
     oh_Generation := oh_Generation sr;
     oh_Spec := oh_Spec sr;
     oh_Status := {| status_Conditions := status_Conditions (oh_Status sr);
                     status_HandlerStatus := l |} |}.

Definition set_Conditions (sr : ObjectHandler) (l : list Condition) : ObjectHandler :=
  {| oh_Namespace := oh_Namespace sr;
     oh_Name := oh_Name sr;
     oh_Generation := oh_Generation sr;
     oh_Spec := oh_Spec sr;
     oh_Status := {| status_Conditions := l;
                     status_HandlerStatus := status_HandlerStatus (oh_Status sr) |} |}.

Definition set_Error (status : HandlerStatus) (e : string) : HandlerStatus :=
  {| hs_Key := hs_Key status; hs_Error := e; hs_Detail := hs_Detail status |}.

(** ** Collaborators *)
Class Cluster := {
  (** [r.Get(ctx, req.NamespacedName, &sr)] *)
  Get : World -> NamespacedName -> World * result ObjectHandler;
  (** [r.Client.Get(ctx, name, &obj)] on an unstructured object of kind [gvk] *)
  GetObject : World -> GroupVersionKind -> NamespacedName -> World * result Object;
  (** [r.List(ctx, &list, client.MatchingFields{forObjectIndexKey: v})] *)
  List : World -> string -> World * result (list ObjectHandler);
  (** [r.Status().Patch(ctx, &sr, patch)]: the modified instance, the
      snapshot the patch is computed from; on success [sr] holds the
      server's answer *)
  Patch : World -> ObjectHandler -> ObjectHandler -> World * result ObjectHandler;
  (** [r.controller.Watch(&source.Kind{...}, handler...)] *)
  Watch : World -> GroupVersionKind -> World * option PlainError;
  BuildPullRequestCommentReporter :
    World -> string -> PullRequestCommentSpec -> World * result Reporter;
  BuildPullRequestApproveReporter :
    World -> string -> PullRequestApproveSpec -> World * result Reporter;
  (** [reporter.Handle(ctx, r.Client, &obj, status)]: both [obj] and
      [status] are passed by pointer *)
  Handle : Reporter -> World -> Object -> HandlerStatus ->
           World * Object * HandlerStatus * option PlainError;
  (** [spec.BuildKey()] *)
  BuildKey : HandlerSpec -> string;
  (** [sr.Spec.ForObject.GroupVersionKind()] *)
  ForObject_GroupVersionKind : ObjectRef -> result GroupVersionKind;
  (** [buildObjectIndexValue(object)] *)
  buildObjectIndexValue : Object -> string }.

Context {C : Cluster}.

(** ** Reconciler state *)

Inductive Event :=
| EvGet (req : NamespacedName) (err : option PlainError)
| EvWatch (gvk : GroupVersionKind) (err : option PlainError)
| EvGetObject (gvk : GroupVersionKind) (name : NamespacedName) (err : option PlainError)
| EvBuild (spec : HandlerSpec) (err : option PlainError)
| EvHandle (key : string) (err : option PlainError)
| EvPatch (sent : ObjectHandler) (err : option PlainError)
| EvList (value : string) (err : option PlainError).

Record State := mkState {
  world : World;
  watchedKinds : gmap GroupVersionKind bool;
  trace : list Event }.

(** a call to a collaborator: the world moves on and the call is logged *)
Definition called (s : State) (w : World) (ev : Event) : State :=
  {| world := w; watchedKinds := watchedKinds s; trace := trace s ++ [ev] |}.

Definition set_watchedKinds (s : State) (m : gmap GroupVersionKind bool) : State :=
  {| world := world s; watchedKinds := m; trace := trace s |}.

Definition result_err {A} (r : result A) : option PlainError :=
  match r with Ok _ => None | Err e => Some e end.

(** [SetupWithManager]: [r.watchedKinds = map[schema.GroupVersionKind]bool{}] *)
Definition SetupWithManager (w : World) : State :=
  {| world := w; watchedKinds := ∅; trace := [] |}.

(** ** addWatchForKind

    The body between [r.mutex.Lock()] and the deferred [Unlock] runs as one
    step here; the interleaving of several workers is modelled further
    down. *)
Definition addWatchForKind (s : State) (sr : ObjectHandler) : State * option error :=
  match ForObject_GroupVersionKind (spec_ForObject (oh_Spec sr)) with
  | Err e => (s, Some (Plain e))
  | Ok gvk =>
    match watchedKinds s !! gvk with
    | Some true => (s, None)
    | _ =>
      let '(w, err) := Watch (world s) gvk in
      let s1 := called s w (EvWatch gvk err) in
      match err with
      | Some e => (s1, Some (Plain e))
      | None => (set_watchedKinds s1 (<[gvk := true]> (watchedKinds s1)), None)
      end
    end
  end.


(** ** doReconcile *)

(** the name the target object is fetched under *)
Definition targetName (sr : ObjectHandler) : NamespacedName :=
  let name := {| nn_Name := ref_Name (spec_ForObject (oh_Spec sr));
                 nn_Namespace := oh_Namespace sr |} in
  if decide (ref_Namespace (spec_ForObject (oh_Spec sr)) ≠ "")
  then {| nn_Name := nn_Name name;
          nn_Namespace := ref_Namespace (spec_ForObject (oh_Spec sr)) |}
  else name.

(** the variables live across the handler loop *)
Record Loop := mkLoop {
  l_state : State;
  l_sr : ObjectHandler;
  l_obj : Object;
  l_existingStatuses : gmap string bool;
  l_errs : list PlainError }.

(** the body of the loop once [reporter] is built: lines 163-186 *)
Definition runHandler (st : Loop) (spec : HandlerSpec) (s : State) (reporter : Reporter)
  : Loop :=
  let key := BuildKey spec in
  let existingStatuses := <[key := true]> (l_existingStatuses st) in
  let l := status_HandlerStatus (oh_Status (l_sr st)) in
  let '(i, status, l1) :=
    match list_find (fun x => hs_Key x = key) l with
    | Some (i, x) => (i, x, l)
    | None =>
      let status := {| hs_Key := key; hs_Error := ""; hs_Detail := zeroDetail |} in
      (length l, status, l ++ [status])
    end in
  let '(w, obj, status1, err) := Handle reporter (world s) (l_obj st) status in
  let s1 := called s w (EvHandle key err) in
  match err with
  | Some e =>
    {| l_state := s1;
       l_sr := set_HandlerStatus (l_sr st) (<[i := set_Error status1 (perr_msg e)]> l1);
       l_obj := obj;
       l_existingStatuses := existingStatuses;
       l_errs := Append (l_errs st) e |}
  | None =>
    {| l_state := s1;
       l_sr := set_HandlerStatus (l_sr st) (<[i := set_Error status1 ""]> l1);
       l_obj := obj;
       l_existingStatuses := existingStatuses;
       l_errs := l_errs st |}
  end.

(** one iteration: [inr] is the early [return] of [doReconcile], with the
    state and instance as they are at that point *)
Definition handlerStep (st : Loop) (spec : HandlerSpec) : Loop + (State * ObjectHandler * error) :=
  let s := l_state st in
  match PullRequestComment spec with
  | Some c =>
    let '(w, r) := BuildPullRequestCommentReporter (world s) (oh_Namespace (l_sr st)) c in
    let s1 := called s w (EvBuild spec (result_err r)) in
    match r with
    | Err e => inr (s1, l_sr st, Plain e)
    | Ok reporter => inl (runHandler st spec s1 reporter)
    end
  | None =>
    match PullRequestApprove spec with
    | Some a =>
      let '(w, r) := BuildPullRequestApproveReporter (world s) (oh_Namespace (l_sr st)) a in
      let s1 := called s w (EvBuild spec (result_err r)) in
      match r with
      | Err e => inr (s1, l_sr st, Plain e)
      | Ok reporter => inl (runHandler st spec s1 reporter)
      end
    | None => inr (s, l_sr st, Plain (Errorf "no reporter specified"))
    end
  end.

Fixpoint handlerLoop (st : Loop) (specs : list HandlerSpec)
  : Loop + (State * ObjectHandler * error) :=
  match specs with
  | [] => inl st
  | spec :: rest =>
    match handlerStep st spec with
    | inl st1 => handlerLoop st1 rest
    | inr stop => inr stop
    end
  end.

(** lines 189-195 *)
Definition prune (existingStatuses : gmap string bool) (old : list HandlerStatus)
  : list HandlerStatus :=
  filter (fun x => existingStatuses !! hs_Key x = Some true) old.

Definition doReconcile (s : State) (sr : ObjectHandler)
  : State * ObjectHandler * option error :=
  match addWatchForKind s sr with
  | (s1, Some e) => (s1, sr, Some e)
  | (s1, None) =>
    match ForObject_GroupVersionKind (spec_ForObject (oh_Spec sr)) with
    | Err e => (s1, sr, Some (Plain e))
    | Ok gvk =>
      let name := targetName sr in
      let '(w, r) := GetObject (world s1) gvk name in
      let s2 := called s1 w (EvGetObject gvk name (result_err r)) in
      match r with
      | Err e => (s2, sr, Some (Plain e))
      | Ok obj =>
        let st := {| l_state := s2; l_sr := sr; l_obj := obj;
                     l_existingStatuses := ∅; l_errs := [] |} in
        match handlerLoop st (spec_Handlers (oh_Spec sr)) with
        | inr (s3, sr3, e) => (s3, sr3, Some e)
        | inl st1 =>
          let old := status_HandlerStatus (oh_Status (l_sr st1)) in
          (l_state st1,
           set_HandlerStatus (l_sr st1) (prune (l_existingStatuses st1) old),
           ErrorOrNil (l_errs st1))
        end
      end
    end
  end.

(** ** Reconcile *)

Definition readyCondition (sr : ObjectHandler) (err : option error) : Condition :=
  match err with
  | Some e =>
    {| cond_Type := "Ready";
       cond_Status := ConditionFalse;
       cond_ObservedGeneration := oh_Generation sr;
       cond_Reason := "Error";
       cond_Message := Error e |}
  | None =>
    {| cond_Type := "Ready";
       cond_Status := ConditionTrue;
       cond_ObservedGeneration := oh_Generation sr;
       cond_Reason := "Success";
       cond_Message := "Success" |}
  end.

Definition Reconcile (s : State) (req : Request) : State * Result * option error :=
  let '(w, r) := Get (world s) req in
  let s0 := called s w (EvGet req (result_err r)) in
  match r with
  | Err e => (s0, emptyResult, Some (Plain e))
  | Ok sr0 =>
    (* patch := client.MergeFrom(sr.DeepCopy()) *)
    let base := sr0 in
    let '(s1, sr1, err) := doReconcile s0 sr0 in
    let c := readyCondition sr1 err in
    let sr2 := set_Conditions sr1 (SetStatusCondition (status_Conditions (oh_Status sr1)) c) in
    let '(w', r') := Patch (world s1) sr2 base in
    let s2 := called s1 w' (EvPatch sr2 (result_err r')) in
    match r' with
    | Err e => (s2, emptyResult, Some (Plain e))
    | Ok sr3 =>
      (s2, {| Requeue := false; RequeueAfter := spec_Interval (oh_Spec sr3) |}, None)
    end
  end.

(** ** Workers racing through addWatchForKind

    Each reconciliation worker runs [addWatchForKind] on its own instance.
    A worker is at one of the places below; [r.mutex] is a flag that
    [Lock] can only take when it is free, and the deferred [Unlock]
    releases it on each [return]. *)
Inductive Pc :=
| AtEntry (sr : ObjectHandler)      (* line 201: about to resolve the kind *)
| AtLock (gvk : GroupVersionKind)   (* line 206: waiting on r.mutex.Lock() *)
| AtCheck (gvk : GroupVersionKind)  (* line 209: reads r.watchedKinds[gvk] *)
| AtWatch (gvk : GroupVersionKind)  (* line 216: calls r.controller.Watch *)
| AtMark (gvk : GroupVersionKind)   (* line 239: r.watchedKinds[gvk] = true *)
| Returned (err : option error).

Record System := mkSystem {
  sys_state : State;
  sys_mutex : bool;
  sys_workers : list Pc }.

Definition holdsMutex (pc : Pc) : bool :=
  match pc with
  | AtCheck _ | AtWatch _ | AtMark _ => true
  | _ => false
  end.

Definition moveWorker (sys : System) (i : nat) (s : State) (mutex : bool) (pc : Pc) : System :=
  {| sys_state := s; sys_mutex := mutex; sys_workers := <[i := pc]> (sys_workers sys) |}.

(** one step of worker [i]; [None] when it is blocked or has returned *)
Definition workerStep (i : nat) (sys : System) : option System :=
  let s := sys_state sys in
  match sys_workers sys !! i with
  | None => None
  | Some (AtEntry sr) =>
    match ForObject_GroupVersionKind (spec_ForObject (oh_Spec sr)) with
    | Err e => Some (moveWorker sys i s (sys_mutex sys) (Returned (Some (Plain e))))
    | Ok gvk => Some (moveWorker sys i s (sys_mutex sys) (AtLock gvk))
    end
  | Some (AtLock gvk) =>
    if sys_mutex sys then None else Some (moveWorker sys i s true (AtCheck gvk))
  | Some (AtCheck gvk) =>
    match watchedKinds s !! gvk with
    | Some true => Some (moveWorker sys i s false (Returned None))
    | _ => Some (moveWorker sys i s (sys_mutex sys) (AtWatch gvk))
    end
  | Some (AtWatch gvk) =>
    let '(w, err) := Watch (world s) gvk in
    let s1 := called s w (EvWatch gvk err) in
    match err with
    | Some e => Some (moveWorker sys i s1 false (Returned (Some (Plain e))))
    | None => Some (moveWorker sys i s1 (sys_mutex sys) (AtMark gvk))
    end
  | Some (AtMark gvk) =>
    Some (moveWorker sys i (set_watchedKinds s (<[gvk := true]> (watchedKinds s)))
            false (Returned None))
  | Some (Returned _) => None
  end.

Definition isWatchEvent (ev : Event) : bool :=
  match ev with EvWatch _ _ => true | _ => false end.

(** what happens next: worker [i] moves, or something else in the process
    calls a collaborator other than [Watch] (line 216 is the only call of
    [Watch], and [addWatchForKind] alone writes [watchedKinds]) *)
Inductive Move :=
| Work (i : nat)
| Elsewhere (w : World) (ev : Event).

Definition systemStep (m : Move) (sys : System) : System :=
  match m with
  | Work i => default sys (workerStep i sys)
  | Elsewhere w ev =>
    if isWatchEvent ev then sys
    else {| sys_state := called (sys_state sys) w ev;
            sys_mutex := sys_mutex sys;
            sys_workers := sys_workers sys |}
  end.

Fixpoint run (schedule : list Move) (sys : System) : System :=
  match schedule with
  | [] => sys
  | m :: rest => run rest (systemStep m sys)
  end.

Definition startWorkers (w : World) (srs : list ObjectHandler) : System :=
  {| sys_state := SetupWithManager w; sys_mutex := false; sys_workers := AtEntry <$> srs |}.

(** ** Reading the trace *)

Definition isSubscription (gvk : GroupVersionKind) (ev : Event) : bool :=
  match ev with
  | EvWatch g None => bool_decide (g = gvk)
  | _ => false
  end.

(** the subscriptions created for [gvk]: the calls of [Watch] on it that
    returned nil *)
Definition subscriptions (gvk : GroupVersionKind) (tr : list Event) : nat :=
  length (filter (fun ev => isSubscription gvk ev) tr).


(** the handler executions, in order: key and outcome *)
Definition handled (tr : list Event) : list (string * option PlainError) :=
  omap (fun ev => match ev with EvHandle k err => Some (k, err) | _ => None end) tr.

(** the text [doReconcile] stores in [status.Error] for an outcome *)
Definition errorText (err : option PlainError) : string :=
  match err with Some e => perr_msg e | None => "" end.

(** the first record of a key, as the lookup of lines 167-172 finds it *)
Definition findStatus (key : string) (l : list HandlerStatus) : option HandlerStatus :=
  snd <$> list_find (fun x => hs_Key x = key) l.

(** [doReconcile] got past the handler loop: every early [return] hands
    back a plain error, the last line a multierror or nil *)
Definition completedLoop (err : option error) : Prop :=
  match err with
  | Some (Plain _) => False
  | _ => True
  end.

(** handler strategies that leave [status.Key] as they found it *)
Definition KeepsKey : Prop :=
  forall reporter w obj status,
    hs_Key (Handle reporter w obj status).1.2 = hs_Key status.

(** what lines 166-186 do to the list of status records: the first record
    of the key, or a fresh one appended, is handed to the handler and
    written back with its [Error] set *)
Definition updated (key : string) (err : option PlainError) (l l' : list HandlerStatus)
  : Prop :=
  exists i status status1,
    (KeepsKey -> hs_Key status1 = key) /\
    ((list_find (fun x => hs_Key x = key) l = Some (i, status) /\
      l' = <[i := set_Error status1 (errorText err)]> l) \/
     (list_find (fun x => hs_Key x = key) l = None /\
      l' = l ++ [set_Error status1 (errorText err)])).

(** the calls a run of the loop over [specs] makes when every reporter
    resolves, given the outcome of each [Handle] *)
Definition pipelineEvents (specs : list HandlerSpec) (outs : list (option PlainError))
  : list Event :=
  flat_map (fun '(spec, o) => [EvBuild spec None; EvHandle (BuildKey spec) o])
    (zip specs outs).

Definition failures (outs : list (option PlainError)) : list PlainError :=
  omap id outs.

(** events of the handler loop *)
Definition isPipelineEvent (ev : Event) : bool :=
  match ev with
  | EvBuild _ _ | EvHandle _ _ => true
  | _ => false
  end.

(** the instance as [Reconcile] sends it to [Patch]: lines 65-83 *)
Definition reported (sr : ObjectHandler) (err : option error) : ObjectHandler :=
  set_Conditions sr
    (SetStatusCondition (status_Conditions (oh_Status sr)) (readyCondition sr err)).

(** the number of records of a key *)
Definition records (k : string) (l : list HandlerStatus) : nat :=
  length (filter (fun x => hs_Key x = k) l).

(** the registry agrees with the log: a kind is marked exactly when one
    subscription was created for it, and none was created otherwise *)
Definition consistent (s : State) : Prop :=
  forall gvk,
    subscriptions gvk (trace s)
      = (if decide (watchedKinds s !! gvk = Some true) then 1 else 0)%nat.

(** what holds of the racing workers at every moment: either the mutex is
    free, nobody is past [Lock] and the registry agrees with the log; or
    one worker [h] is past [Lock], nobody else is, and the registry agrees
    with the log up to the kind that [h] has subscribed to and not yet
    marked *)
Definition mutexInv (sys : System) : Prop :=
  (sys_mutex sys = false /\
   (forall i pc, sys_workers sys !! i = Some pc -> holdsMutex pc = false) /\
   consistent (sys_state sys)) \/
  (exists h pc,
     sys_mutex sys = true /\
     sys_workers sys !! h = Some pc /\
     (forall j pc', j <> h -> sys_workers sys !! j = Some pc' -> holdsMutex pc' = false) /\
     match pc with
     | AtCheck _ => consistent (sys_state sys)
     | AtWatch gvk =>
       consistent (sys_state sys) /\ watchedKinds (sys_state sys) !! gvk <> Some true
     | AtMark gvk =>
       watchedKinds (sys_state sys) !! gvk <> Some true /\
       subscriptions gvk (trace (sys_state sys)) = 1%nat /\
       forall g, g <> gvk ->
         subscriptions g (trace (sys_state sys))
           = (if decide (watchedKinds (sys_state sys) !! g = Some true) then 1 else 0)%nat
     | _ => False
     end).

(** ** More ways to read a pass *)

(** the keys [hs], in order, added at the end of [keys] when not there yet:
    the order in which the handler loop appends fresh records *)
Definition appendMissing (keys hs : list string) : list string :=
  foldl (fun acc k => if decide (k ∈ acc) then acc else acc ++ [k]) keys hs.

(** the calls [doReconcile] can make *)
Definition isPassEvent (ev : Event) : bool :=
  match ev with
  | EvWatch _ _ | EvGetObject _ _ _ | EvBuild _ _ | EvHandle _ _ => true
  | _ => false
  end.

(** one worker serving requests one after the other *)
Fixpoint reconcileAll (s : State) (reqs : list Request) : State :=
  match reqs with
  | [] => s
  | req :: rest => reconcileAll (Reconcile s req).1.1 rest
  end.

(** the registry never holds [false] *)
Definition onlyTrue (m : gmap GroupVersionKind bool) : Prop :=
  forall gvk b, m !! gvk = Some b -> b = true.

(** the lines a worker still has before it in [addWatchForKind] *)
Definition rank (pc : Pc) : nat :=
  match pc with
  | AtEntry _ => 5
  | AtLock _ => 4
  | AtCheck _ => 3
  | AtWatch _ => 2
  | AtMark _ => 1
  | Returned _ => 0
  end.

Definition totalRank (sys : System) : nat := sum_list (rank <$> sys_workers sys).

Definition hasReturned (pc : Pc) : Prop :=
  match pc with Returned _ => True | _ => False end.

(** [sub] occurs in [text] *)
Definition occursIn (sub text : string) : Prop :=
  exists before after, text = before +:+ sub +:+ after.

(** how the registry and the log may differ between [s] and a later [s']:
    some calls were logged, and either the registry is the same and no
    subscription was created, or one unmarked kind was marked and exactly one
    subscription, for that kind, was created *)
Definition registryStep (s s' : State) : Prop :=
  exists tr,
    trace s' = trace s ++ tr /\
    ((watchedKinds s' = watchedKinds s /\ forall g, subscriptions g tr = 0%nat) \/
     (exists gvk,
        watchedKinds s !! gvk <> Some true /\
        watchedKinds s' = <[gvk := true]> (watchedKinds s) /\
        subscriptions gvk tr = 1%nat /\
        forall g, g <> gvk -> subscriptions g tr = 0%nat)).



End Model.

(** ** A small cluster to run the model on

    The world is a clock that every call advances; a [Scenario] says what
    each collaborator answers at a given time. *)
Module Toy.

Definition types : Types :=
  {| World := nat;
     Object := string;
     Reporter := string;
     PullRequestCommentSpec := string;
     PullRequestApproveSpec := string;
     TypeRef := option GroupVersionKind;
     StatusDetail := nat;
     zeroDetail := 0%nat |}.

Record Scenario := mkScenario {
  sc_get : nat -> NamespacedName -> result (@ObjectHandler types);
  sc_object : nat -> GroupVersionKind -> NamespacedName -> result string;
  sc_list : nat -> string -> result (list (@ObjectHandler types));
  sc_patch : nat -> option PlainError;
  sc_watch : nat -> GroupVersionKind -> option PlainError;
  sc_build : nat -> string -> option PlainError;
  sc_handle : nat -> string -> option PlainError }.

Definition key (spec : @HandlerSpec types) : string :=
  match PullRequestComment spec, PullRequestApprove spec with
  | Some c, Some a => "comment:" +:+ c +:+ ",approve:" +:+ a
  | Some c, None => "comment:" +:+ c
  | None, Some a => "approve:" +:+ a
  | None, None => ""
  end.

Definition cluster (sc : Scenario) : @Cluster types :=
  @Build_Cluster types
    (* Get *)
    (fun (w : nat) req => (S w, sc_get sc w req))
    (* GetObject *)
    (fun (w : nat) gvk name => (S w, sc_object sc w gvk name))
    (* List *)
    (fun (w : nat) value => (S w, sc_list sc w value))
    (* Patch: the server answers with the instance as sent *)
    (fun (w : nat) sr base =>
       (S w, match sc_patch sc w with Some e => Err e | None => Ok sr end))
    (* Watch *)
    (fun (w : nat) gvk => (S w, sc_watch sc w gvk))
    (* BuildPullRequestCommentReporter *)
    (fun (w : nat) ns (c : string) =>
       (S w, match sc_build sc w c with
             | Some e => Err e
             | None => Ok ("comment:" +:+ c)
             end))
    (* BuildPullRequestApproveReporter *)
    (fun (w : nat) ns (a : string) =>
       (S w, match sc_build sc w a with
             | Some e => Err e
             | None => Ok ("approve:" +:+ a)
             end))
    (* Handle: counts its visits in the record *)
    (fun (reporter : string) (w : nat) (obj : string) (status : @HandlerStatus types) =>
       (S w, obj,
        @mkHandlerStatus types (hs_Key status) (hs_Error status)
          (S (hs_Detail status : nat)),
        sc_handle sc w reporter))
    (* BuildKey *)
    key
    (* ForObject.GroupVersionKind *)
    (fun ref =>
       match ref_Type ref with
       | Some gvk => Ok gvk
       | None => Err (Errorf "unknown kind")
       end)
    (* buildObjectIndexValue *)
    (fun (obj : string) => obj).

(** the same cluster with handlers that write a key of their own into the
    record they are handed *)
Definition renaming (sc : Scenario) : @Cluster types :=
  @Build_Cluster types
    (@Get types (cluster sc))
    (@GetObject types (cluster sc))
    (@List types (cluster sc))
    (@Patch types (cluster sc))
    (@Watch types (cluster sc))
    (@BuildPullRequestCommentReporter types (cluster sc))
    (@BuildPullRequestApproveReporter types (cluster sc))
    (fun (reporter : string) (w : nat) (obj : string) (status : @HandlerStatus types) =>
       (S w, obj,
        @mkHandlerStatus types "renamed" (hs_Error status) (hs_Detail status),
        sc_handle sc w reporter))
    (@BuildKey types (cluster sc))
    (@ForObject_GroupVersionKind types (cluster sc))
    (@buildObjectIndexValue types (cluster sc)).

Definition deployment : GroupVersionKind :=
  {| Group := "apps"; Version := "v1"; Kind := "Deployment" |}.

Definition notFound : PlainError :=
  {| perr_msg := "objecthandlers.status.kluctl.io not found"; perr_notfound := true |}.

Definition comment (c : string) : @HandlerSpec types :=
  @mkHandlerSpec types (Some c) None.
Definition approve (a : string) : @HandlerSpec types :=
  @mkHandlerSpec types None (Some a).
Definition record (k e : string) : @HandlerStatus types :=
  @mkHandlerStatus types k e 0%nat.

(** an instance in namespace team-a for the Deployment app, every 10s;
    [refns] is the namespace written in its reference *)
Definition instance (refns : string) (handlers : list (@HandlerSpec types))
    (statuses : list (@HandlerStatus types)) : @ObjectHandler types :=
  @mkObjectHandler types "team-a" "report" 1
    (@mkObjectHandlerSpec types 10000000000
       (@mkObjectRef types (Some deployment) "app" refns) handlers)
    (@mkObjectHandlerStatus types [] statuses).

(** everything answers, and the instance fetched is [sr] *)
Definition calm (sr : @ObjectHandler types) : Scenario :=
  {| sc_get := fun _ _ => Ok sr;
     sc_object := fun _ _ _ => Ok "app";
     sc_list := fun _ _ => Ok [sr];
     sc_patch := fun _ => None;
     sc_watch := fun _ _ => None;
     sc_build := fun _ _ => None;
     sc_handle := fun _ _ => None |}.

Definition request : Request := {| nn_Namespace := "team-a"; nn_Name := "report" |}.

Definition start : @State types := @SetupWithManager types 0%nat.

(** *** Scenarios *)

Definition unreachable : PlainError := Errorf "review system unreachable".
Definition forbidden : PlainError := Errorf "403 Forbidden".
Definition noMatch : PlainError := Errorf "no matches for kind Deployment".
Definition targetNotFound : PlainError :=
  {| perr_msg := "deployments.apps app not found"; perr_notfound := true |}.

(** the handler call made at time [t] fails, every other one succeeds *)
Definition flakyAt (t : nat) (sr : @ObjectHandler types) : Scenario :=
  {| sc_get := sc_get (calm sr);
     sc_object := sc_object (calm sr);
     sc_list := sc_list (calm sr);
     sc_patch := sc_patch (calm sr);
     sc_watch := sc_watch (calm sr);
     sc_build := sc_build (calm sr);
     sc_handle := fun w _ => if decide (w = t) then Some unreachable else None |}.

(** the reporter named [reporter] always fails *)
Definition rejecting (reporter : string) (sr : @ObjectHandler types) : Scenario :=
  {| sc_get := sc_get (calm sr);
     sc_object := sc_object (calm sr);
     sc_list := sc_list (calm sr);
     sc_patch := sc_patch (calm sr);
     sc_watch := sc_watch (calm sr);
     sc_build := sc_build (calm sr);
     sc_handle := fun _ r => if decide (r = reporter) then Some forbidden else None |}.

(** the instance has been deleted *)
Definition gone (sr : @ObjectHandler types) : Scenario :=
  {| sc_get := fun _ _ => Err notFound;
     sc_object := sc_object (calm sr);
     sc_list := sc_list (calm sr);
     sc_patch := sc_patch (calm sr);
     sc_watch := sc_watch (calm sr);
     sc_build := sc_build (calm sr);
     sc_handle := sc_handle (calm sr) |}.

(** the subscription cannot be created at time 0, and can afterwards *)
Definition noWatchAtFirst (sr : @ObjectHandler types) : Scenario :=
  {| sc_get := sc_get (calm sr);
     sc_object := sc_object (calm sr);
     sc_list := sc_list (calm sr);
     sc_patch := sc_patch (calm sr);
     sc_watch := fun w _ => if decide (w = 0%nat) then Some noMatch else None;
     sc_build := sc_build (calm sr);
     sc_handle := sc_handle (calm sr) |}.

(** the target object does not exist *)
Definition targetAbsent (sr : @ObjectHandler types) : Scenario :=
  {| sc_get := sc_get (calm sr);
     sc_object := fun _ _ _ => Err targetNotFound;
     sc_list := sc_list (calm sr);
     sc_patch := sc_patch (calm sr);
     sc_watch := sc_watch (calm sr);
     sc_build := sc_build (calm sr);
     sc_handle := sc_handle (calm sr) |}.


(** *** Instances *)

(** one handler, and two records of its key left in the status *)
Definition twice : @ObjectHandler types :=
  instance "" [comment "mr"] [record "comment:mr" ""; record "comment:mr" "old"].

(** two handlers of the same content *)
Definition twins : @ObjectHandler types :=
  instance "" [comment "mr"; comment "mr"] [].

(** one handler and no record yet *)
Definition fresh : @ObjectHandler types := instance "" [comment "mr"] [].



(** three handlers, a record from an earlier pass and a record of a handler
    since removed *)
Definition three : @ObjectHandler types :=
  instance "" [comment "a"; approve "b"; comment "c"]
    [record "approve:b" "old failure"; record "comment:removed" ""].

(** an instance that names the namespace of its target *)
Definition remote : @ObjectHandler types := instance "prod" [comment "a"] [].

(** the reconciler once the Deployment kind is watched *)
Definition watching : @State types :=
  @mkState types 7%nat (<[ deployment := true ]> ∅) [].

(** *** More scenarios and instances *)

Definition secretMissing : PlainError := Errorf "secret gitlab-token not found".

(** the reporter of the specification [c] cannot be built *)
Definition unbuildable (c : string) (sr : @ObjectHandler types) : Scenario :=
  {| sc_get := sc_get (calm sr);
     sc_object := sc_object (calm sr);
     sc_list := sc_list (calm sr);
     sc_patch := sc_patch (calm sr);
     sc_watch := sc_watch (calm sr);
     sc_build := fun _ x => if decide (x = c) then Some secretMissing else None;
     sc_handle := sc_handle (calm sr) |}.


(** an instance whose reference names no kind the cluster knows *)
Definition kindless : @ObjectHandler types :=
  @mkObjectHandler types "team-a" "report" 1
    (@mkObjectHandlerSpec types 10000000000
       (@mkObjectRef types None "app" "") [comment "a"])
    (@mkObjectHandlerStatus types [] [record "comment:a" ""]).


End Toy.

(** * Properties *)

Section Properties.
Context {T : Types} {C : Cluster}.

Implicit Types (s : State) (sr : ObjectHandler) (st : Loop).

(** ** Conditions *)

Lemma FindStatusCondition_Set (conditions : list Condition) (c : Condition) :
  FindStatusCondition (SetStatusCondition conditions c) (cond_Type c) = Some c.
Proof.
  unfold FindStatusCondition, SetStatusCondition.
  destruct (list_find _ conditions) as [[i existing]|] eqn:Hfind.
  - apply list_find_Some in Hfind as (Hi & Hty & Hleast).
    set (c' := {| cond_Type := cond_Type existing |}).
    assert (Hc' : c' = c) by (subst c'; destruct c; simpl in *; by subst).
    assert (Hnew : list_find (fun x => cond_Type x = cond_Type c) (<[i:=c']> conditions)
                   = Some (i, c')).
    { apply list_find_Some. split_and!.
      - apply list_lookup_insert_eq. by eapply lookup_lt_Some.
      - by rewrite Hc'.
      - intros j y Hj Hlt. rewrite list_lookup_insert_ne in Hj by lia. eauto. }
    rewrite Hnew. simpl. by rewrite Hc'.
  - apply list_find_None in Hfind.
    assert (Hnew : list_find (fun x => cond_Type x = cond_Type c) (conditions ++ [c])
                   = Some (length conditions, c)).
    { apply list_find_Some. split_and!.
      - by rewrite lookup_app_r, Nat.sub_diag.
      - done.
      - intros j y Hj Hlt. rewrite lookup_app_l in Hj by done.
        eapply Forall_lookup_1 in Hfind; eauto. }
    by rewrite Hnew.
Qed.

(** ** The shape of a pass *)

(** Reconcile once the instance is fetched: lines 63-91 *)
Lemma Reconcile_fetched s req w sr0 s1 sr1 derr :
  Get (world s) req = (w, Ok sr0) ->
  doReconcile (called s w (EvGet req None)) sr0 = (s1, sr1, derr) ->
  let sent := reported sr1 derr in
  forall w' r,
    Patch (world s1) sent sr0 = (w', r) ->
    Reconcile s req =
      (called s1 w' (EvPatch sent (result_err r)),
       match r with
       | Ok sr3 => {| Requeue := false; RequeueAfter := spec_Interval (oh_Spec sr3) |}
       | Err _ => emptyResult
       end,
       match r with
       | Ok _ => None
       | Err e => Some (Plain e)
       end).
Proof.
  intros Hget Hdo sent w' r Hpatch. unfold Reconcile.
  rewrite Hget. simpl. rewrite Hdo. fold (reported sr1 derr). fold sent.
  rewrite Hpatch. by destruct r.
Qed.

Lemma reported_Ready sr1 (derr : option error) :
  FindStatusCondition (status_Conditions (oh_Status (reported sr1 derr))) "Ready"
    = Some (readyCondition sr1 derr).
Proof.
  simpl. replace "Ready" with (cond_Type (readyCondition sr1 derr)) by by destruct derr.
  apply FindStatusCondition_Set.
Qed.

(** doReconcile once the watch stands and the target is fetched: the
    handler loop and the pruning, lines 147-197 *)
Lemma doReconcile_fetched s sr s1 gvk w obj :
  addWatchForKind s sr = (s1, None) ->
  ForObject_GroupVersionKind (spec_ForObject (oh_Spec sr)) = Ok gvk ->
  GetObject (world s1) gvk (targetName sr) = (w, Ok obj) ->
  doReconcile s sr =
    match handlerLoop {| l_state := called s1 w (EvGetObject gvk (targetName sr) None);
                         l_sr := sr; l_obj := obj;
                         l_existingStatuses := ∅; l_errs := [] |}
            (spec_Handlers (oh_Spec sr)) with
    | inr (s3, sr3, e) => (s3, sr3, Some e)
    | inl st1 =>
      (l_state st1,
       set_HandlerStatus (l_sr st1)
         (prune (l_existingStatuses st1) (status_HandlerStatus (oh_Status (l_sr st1)))),
       ErrorOrNil (l_errs st1))
    end.
Proof.
  intros Hwatch Hgvk Hget. unfold doReconcile.
  rewrite Hwatch, Hgvk. simpl. by rewrite Hget.
Qed.

Lemma ErrorOrNil_completed (errs : list PlainError) : completedLoop (ErrorOrNil errs).
Proof. by destruct errs. Qed.

(** a pass whose every handler resolves completes the loop *)
Lemma doReconcile_loop_completed s sr s1 gvk w obj st1 :
  addWatchForKind s sr = (s1, None) ->
  ForObject_GroupVersionKind (spec_ForObject (oh_Spec sr)) = Ok gvk ->
  GetObject (world s1) gvk (targetName sr) = (w, Ok obj) ->
  handlerLoop {| l_state := called s1 w (EvGetObject gvk (targetName sr) None);
                 l_sr := sr; l_obj := obj;
                 l_existingStatuses := ∅; l_errs := [] |}
    (spec_Handlers (oh_Spec sr)) = inl st1 ->
  completedLoop (doReconcile s sr).2.
Proof.
  intros Hwatch Hgvk Hget Hloop.
  rewrite (doReconcile_fetched _ _ _ _ _ _ Hwatch Hgvk Hget), Hloop.
  apply ErrorOrNil_completed.
Qed.

Lemma addWatchForKind_Some_Plain s sr s1 e :
  addWatchForKind s sr = (s1, Some e) -> exists p, e = Plain p.
Proof.
  unfold addWatchForKind.
  destruct (ForObject_GroupVersionKind _) as [gvk|p]; [|intros [= _ <-]; eauto].
  destruct (Watch (world s) gvk) as [w [p|]] eqn:Hw;
    destruct (watchedKinds s !! gvk) as [[]|]; intros [=]; subst; eauto.
Qed.

(** conversely, a pass that completed the loop went through each stage *)
Lemma doReconcile_completed s sr s' sr' err :
  doReconcile s sr = (s', sr', err) ->
  completedLoop err ->
  exists s1 gvk w obj st1,
    addWatchForKind s sr = (s1, None) /\
    ForObject_GroupVersionKind (spec_ForObject (oh_Spec sr)) = Ok gvk /\
    GetObject (world s1) gvk (targetName sr) = (w, Ok obj) /\
    handlerLoop {| l_state := called s1 w (EvGetObject gvk (targetName sr) None);
                   l_sr := sr; l_obj := obj;
                   l_existingStatuses := ∅; l_errs := [] |}
      (spec_Handlers (oh_Spec sr)) = inl st1 /\
    s' = l_state st1 /\
    sr' = set_HandlerStatus (l_sr st1)
            (prune (l_existingStatuses st1) (status_HandlerStatus (oh_Status (l_sr st1)))) /\
    err = ErrorOrNil (l_errs st1).
Proof.
  unfold doReconcile.
  destruct (addWatchForKind s sr) as [s1 [e|]] eqn:Hwatch.
  { apply addWatchForKind_Some_Plain in Hwatch as [p ->]. by intros [= _ _ <-] []. }
  destruct (ForObject_GroupVersionKind _) as [gvk|p] eqn:Hgvk;
    [|by intros [= _ _ <-] []].
  destruct (GetObject (world s1) gvk (targetName sr)) as [w [obj|p]] eqn:Hget;
    simpl; [|by intros [= _ _ <-] []].
  destruct (handlerLoop _ _) as [st1|[[s3 sr3] e]] eqn:Hloop.
  - intros [= <- <- <-] _. by exists s1, gvk, w, obj, st1.
  - intros [= _ _ <-] Hc. exfalso. revert Hc Hloop. clear.
    generalize (spec_Handlers (oh_Spec sr)).
    generalize ({| l_state := called s1 w (EvGetObject gvk (targetName sr) None);
                   l_sr := sr; l_obj := obj; l_existingStatuses := ∅; l_errs := [] |}).
    intros st specs Hc. revert st.
    induction specs as [|spec rest IH]; intros st; simpl; [done|].
    destruct (handlerStep st spec) as [st'|stop] eqn:Hstep; [by apply IH|].
    intros [= ->]. revert Hstep. unfold handlerStep.
    repeat (case_match; simplify_eq; try done); intros [=]; by subst.
Qed.

(** ** One handler *)

Lemma runHandler_spec st spec s reporter :
  exists err l',
    trace (l_state (runHandler st spec s reporter))
      = trace s ++ [EvHandle (BuildKey spec) err] /\
    watchedKinds (l_state (runHandler st spec s reporter)) = watchedKinds s /\
    l_sr (runHandler st spec s reporter) = set_HandlerStatus (l_sr st) l' /\
    l_existingStatuses (runHandler st spec s reporter)
      = <[BuildKey spec := true]> (l_existingStatuses st) /\
    l_errs (runHandler st spec s reporter) = l_errs st ++ option_list err /\
    updated (BuildKey spec) err (status_HandlerStatus (oh_Status (l_sr st))) l'.
Proof.
  unfold runHandler.
  set (key := BuildKey spec). set (l := status_HandlerStatus (oh_Status (l_sr st))).
  destruct (list_find (fun x => hs_Key x = key) l) as [[i x]|] eqn:Hfind.
  - destruct (Handle reporter (world s) (l_obj st) x) as [[[w obj] status1] err] eqn:Hh.
    exists err, (<[i := set_Error status1 (errorText err)]> l).
    assert (Hkey : KeepsKey -> hs_Key status1 = key).
    { intros Hk. specialize (Hk reporter (world s) (l_obj st) x). rewrite Hh in Hk.
      simpl in Hk. rewrite Hk. by apply list_find_Some in Hfind as (_ & ? & _). }
    destruct err as [e|]; simpl; unfold Append; rewrite ?app_nil_r;
      split_and!; try done; (exists i, x, status1; split; [done|by left]).
  - set (new := {| hs_Key := key; hs_Error := ""; hs_Detail := zeroDetail |}).
    destruct (Handle reporter (world s) (l_obj st) new) as [[[w obj] status1] err] eqn:Hh.
    exists err, (l ++ [set_Error status1 (errorText err)]).
    assert (Hkey : KeepsKey -> hs_Key status1 = key).
    { intros Hk. specialize (Hk reporter (world s) (l_obj st) new). rewrite Hh in Hk.
      by simpl in Hk. }
    assert (Hins : forall y, <[length l := y]> (l ++ [new]) = l ++ [y]).
    { intros y. replace (length l) with (length l + 0)%nat by lia.
      by rewrite insert_app_r. }
    destruct err as [e|]; simpl; unfold Append; rewrite Hins, ?app_nil_r;
      split_and!; try done; (exists (length l), new, status1; split; [done|by right]).
Qed.

(** an iteration that goes on to the next handler *)
Lemma handlerStep_inl st spec st' :
  handlerStep st spec = inl st' ->
  exists err l',
    trace (l_state st')
      = trace (l_state st) ++ [EvBuild spec None; EvHandle (BuildKey spec) err] /\
    watchedKinds (l_state st') = watchedKinds (l_state st) /\
    l_sr st' = set_HandlerStatus (l_sr st) l' /\
    l_existingStatuses st' = <[BuildKey spec := true]> (l_existingStatuses st) /\
    l_errs st' = l_errs st ++ option_list err /\
    updated (BuildKey spec) err (status_HandlerStatus (oh_Status (l_sr st))) l'.
Proof.
  unfold handlerStep.
  destruct (PullRequestComment spec) as [c|].
  - destruct (BuildPullRequestCommentReporter _ _ c) as [w [reporter|e]]; [|done].
    intros [= <-].
    destruct (runHandler_spec st spec (called (l_state st) w (EvBuild spec None)) reporter)
      as (err & l' & Htr & ? & ? & ? & ? & ?).
    exists err, l'. split_and!; try done.
    rewrite Htr. simpl. by rewrite <- app_assoc.
  - destruct (PullRequestApprove spec) as [a|]; [|done].
    destruct (BuildPullRequestApproveReporter _ _ a) as [w [reporter|e]]; [|done].
    intros [= <-].
    destruct (runHandler_spec st spec (called (l_state st) w (EvBuild spec None)) reporter)
      as (err & l' & Htr & ? & ? & ? & ? & ?).
    exists err, l'. split_and!; try done.
    rewrite Htr. simpl. by rewrite <- app_assoc.
Qed.

(** an iteration that returns from [doReconcile] *)
Lemma handlerStep_inr st spec s' sr' e :
  handlerStep st spec = inr (s', sr', e) ->
  sr' = l_sr st /\ watchedKinds s' = watchedKinds (l_state st) /\
  ((PullRequestComment spec = None /\ PullRequestApprove spec = None /\
    s' = l_state st /\ e = Plain (Errorf "no reporter specified")) \/
   (exists p, e = Plain p /\ trace s' = trace (l_state st) ++ [EvBuild spec (Some p)])).
Proof.
  unfold handlerStep.
  destruct (PullRequestComment spec) as [c|].
  - destruct (BuildPullRequestCommentReporter _ _ c) as [w [reporter|p]]; [done|].
    intros [= <- <- <-]. split_and!; try done. right. by exists p.
  - destruct (PullRequestApprove spec) as [a|].
    + destruct (BuildPullRequestApproveReporter _ _ a) as [w [reporter|p]]; [done|].
      intros [= <- <- <-]. split_and!; try done. right. by exists p.
    + intros [= <- <- <-]. split_and!; try done. by left.
Qed.

(** *** The records after one handler *)

Lemma updated_keys key err l l' :
  KeepsKey -> updated key err l l' ->
  hs_Key <$> l' = (if decide (key ∈ (hs_Key <$> l))
                   then hs_Key <$> l
                   else (hs_Key <$> l) ++ [key]).
Proof.
  intros Hk (i & status & status1 & Hkey & [[Hfind ->]|[Hfind ->]]).
  - apply list_find_Some in Hfind as (Hi & Hx & _). rewrite decide_True.
    + rewrite list_fmap_insert. simpl. rewrite Hkey by done.
      apply list_insert_id. by rewrite list_lookup_fmap, Hi, <- Hx.
    + apply list_elem_of_fmap. exists status. split; [done|].
      by eapply list_elem_of_lookup_2.
  - apply list_find_None in Hfind. rewrite decide_False.
    + rewrite fmap_app. simpl. by rewrite Hkey.
    + intros (x & Hx & Hin)%list_elem_of_fmap.
      eapply Forall_forall in Hfind; eauto.
Qed.

Lemma findStatus_cons key x (l : list HandlerStatus) :
  findStatus key (x :: l) = if decide (hs_Key x = key) then Some x else findStatus key l.
Proof.
  unfold findStatus. simpl. case_decide; [done|].
  by destruct (list_find _ l) as [[]|].
Qed.

Lemma findStatus_find key (l : list HandlerStatus) :
  findStatus key l = None <-> list_find (fun x => hs_Key x = key) l = None.
Proof. unfold findStatus. by destruct (list_find _ l) as [[]|]. Qed.

Lemma findStatus_app key (l1 l2 : list HandlerStatus) :
  findStatus key (l1 ++ l2) =
    match findStatus key l1 with
    | Some x => Some x
    | None => findStatus key l2
    end.
Proof.
  induction l1 as [|a l1 IH]; [done|].
  rewrite <- app_comm_cons, !findStatus_cons. by case_decide.
Qed.

(** the record found is the one written back *)
Lemma findStatus_insert_same key (l : list HandlerStatus) i x y :
  list_find (fun x => hs_Key x = key) l = Some (i, x) ->
  hs_Key y = key ->
  findStatus key (<[i := y]> l) = Some y.
Proof.
  intros (Hi & Hx & Hleast)%list_find_Some Hy. unfold findStatus.
  assert (Hnew : list_find (fun x => hs_Key x = key) (<[i:=y]> l) = Some (i, y)).
  { apply list_find_Some. split_and!; [|done|].
    - apply list_lookup_insert_eq. by eapply lookup_lt_Some.
    - intros j z Hj Hlt. rewrite list_lookup_insert_ne in Hj by lia. eauto. }
  by rewrite Hnew.
Qed.

(** writing a record of one key leaves the lookups of every other key alone *)
Lemma findStatus_insert_other k (l : list HandlerStatus) i x y :
  l !! i = Some x -> hs_Key x <> k -> hs_Key y <> k ->
  findStatus k (<[i := y]> l) = findStatus k l.
Proof.
  revert i. induction l as [|a l IH]; intros [|i] Hi Hx Hy; simplify_eq/=.
  - rewrite !findStatus_cons. by repeat case_decide.
  - rewrite !findStatus_cons. case_decide; [done|]. by eapply IH.
Qed.

Lemma updated_find key err l l' :
  KeepsKey -> updated key err l l' ->
  (exists x, findStatus key l' = Some x /\ hs_Error x = errorText err) /\
  (forall k, k <> key -> findStatus k l' = findStatus k l).
Proof.
  intros Hk (i & status & status1 & Hkey & [[Hfind ->]|[Hfind ->]]).
  - split.
    + exists (set_Error status1 (errorText err)). split; [|done].
      eapply findStatus_insert_same; [exact Hfind|]. simpl. auto.
    + intros k Hne. apply list_find_Some in Hfind as (Hi & Hx & _).
      eapply findStatus_insert_other; [exact Hi|congruence|].
      simpl. rewrite Hkey; auto.
  - split.
    + exists (set_Error status1 (errorText err)). split; [|done].
      rewrite findStatus_app. apply findStatus_find in Hfind. rewrite Hfind.
      rewrite findStatus_cons. simpl. rewrite decide_True; auto.
    + intros k Hne. rewrite findStatus_app.
      destruct (findStatus k l); [done|].
      rewrite findStatus_cons. simpl. rewrite decide_False; [done|].
      rewrite Hkey; auto.
Qed.

(** pruning keeps the first record of every visited key and nothing else *)
Lemma findStatus_prune (ex : gmap string bool) k (l : list HandlerStatus) :
  findStatus k (prune ex l) = if decide (ex !! k = Some true) then findStatus k l else None.
Proof.
  unfold prune. induction l as [|x l IH]; [by case_decide|].
  rewrite filter_cons. destruct (decide (ex !! hs_Key x = Some true)) as [Hx|Hx].
  - rewrite !findStatus_cons, IH. repeat case_decide; congruence.
  - rewrite IH, findStatus_cons. repeat case_decide; congruence.
Qed.

Lemma prune_keys (ex : gmap string bool) (l : list HandlerStatus) :
  hs_Key <$> prune ex l = filter (fun k => ex !! k = Some true) (hs_Key <$> l).
Proof.
  unfold prune. induction l as [|x l IH]; [done|].
  rewrite fmap_cons, !filter_cons. case_decide; by rewrite ?fmap_cons, IH.
Qed.

(** ** The handler loop *)

Local Abbreviation statuses st := (status_HandlerStatus (oh_Status (l_sr st))).

Lemma handlerLoop_inl st specs st' :
  handlerLoop st specs = inl st' ->
  exists outs,
    length outs = length specs /\
    trace (l_state st') = trace (l_state st) ++ pipelineEvents specs outs /\
    watchedKinds (l_state st') = watchedKinds (l_state st) /\
    l_sr st' = set_HandlerStatus (l_sr st) (statuses st') /\
    l_errs st' = l_errs st ++ failures outs /\
    (forall k, l_existingStatuses st' !! k = Some true <->
               l_existingStatuses st !! k = Some true \/ k ∈ (BuildKey <$> specs)) /\
    (KeepsKey ->
       (NoDup (hs_Key <$> statuses st) -> NoDup (hs_Key <$> statuses st')) /\
       (forall k, k ∈ (hs_Key <$> statuses st') <->
                  k ∈ (hs_Key <$> statuses st) \/ k ∈ (BuildKey <$> specs)) /\
       (forall k, k ∉ (BuildKey <$> specs) ->
                  findStatus k (statuses st') = findStatus k (statuses st)) /\
       (forall i spec o,
           specs !! i = Some spec -> outs !! i = Some o ->
           BuildKey spec ∉ (BuildKey <$> drop (S i) specs) ->
           exists x, findStatus (BuildKey spec) (statuses st') = Some x /\
                     hs_Error x = errorText o)).
Proof.
  revert st. induction specs as [|spec rest IH]; intros st; simpl.
  - intros [= <-]. exists []. rewrite !app_nil_r. split_and!; try done.
    + by destruct (l_sr st) as [? ? ? ? []].
    + intros k. rewrite elem_of_nil. tauto.
    + intros _. split_and!; try done.
      intros k. rewrite elem_of_nil. tauto.
  - destruct (handlerStep st spec) as [st1|stop] eqn:Hstep; [|done].
    intros Hloop.
    apply handlerStep_inl in Hstep as (o & l1 & Htr1 & Hw1 & Hsr1 & Hex1 & Herr1 & Hup).
    apply IH in Hloop as (outs & Hlen & Htr & Hw & Hsr & Herr & Hex & Hkeep).
    exists (o :: outs). split_and!.
    + simpl. by rewrite Hlen.
    + rewrite Htr, Htr1. unfold pipelineEvents. simpl. by rewrite <- app_assoc.
    + by rewrite Hw, Hw1.
    + rewrite Hsr, Hsr1. done.
    + rewrite Herr, Herr1. unfold failures. simpl. rewrite <- app_assoc.
      by destruct o.
    + intros k. rewrite Hex, Hex1, elem_of_cons.
      destruct (decide (BuildKey spec = k)) as [->|Hne].
      * rewrite lookup_insert_eq. tauto.
      * rewrite lookup_insert_ne by done. split; [tauto|].
        intros [?|[?|?]]; auto. congruence.
    + intros Hk. destruct (Hkeep Hk) as (Hnd & Hin & Hframe & Hfind).
      assert (Hl1 : statuses st1 = l1) by by rewrite Hsr1.
      rewrite Hl1 in *.
      pose proof (updated_keys _ _ _ _ Hk Hup) as Hkeys.
      destruct (updated_find _ _ _ _ Hk Hup) as ((x & Hx & Hxe) & Hother).
      split_and!.
      * intros Hnd0. apply Hnd. rewrite Hkeys. case_decide as Hmem; [done|].
        apply NoDup_app. split_and!; [done| |apply NoDup_singleton].
        intros k Hk1 ->%list_elem_of_singleton. done.
      * intros k. rewrite Hin, Hkeys, elem_of_cons. case_decide as Hmem.
        -- split; [tauto|]. intros [?|[->|?]]; auto.
        -- rewrite elem_of_app, list_elem_of_singleton. tauto.
      * intros k [Hne Hrest]%not_elem_of_cons.
        rewrite Hframe by done. by apply Hother.
      * intros [|i] spec' o' Hs Ho Hlast; simplify_eq/=.
        -- rewrite drop_0 in Hlast. exists x. by rewrite Hframe.
        -- by eapply Hfind.
Qed.

(** a loop that returns from [doReconcile] early *)
Lemma handlerLoop_inr st specs s' sr' e :
  handlerLoop st specs = inr (s', sr', e) ->
  exists pre spec post st1,
    specs = pre ++ spec :: post /\
    handlerLoop st pre = inl st1 /\
    handlerStep st1 spec = inr (s', sr', e).
Proof.
  revert st. induction specs as [|spec rest IH]; intros st; simpl; [done|].
  destruct (handlerStep st spec) as [st1|stop] eqn:Hstep.
  - intros (pre & spec' & post & st2 & -> & Hpre & Hlast)%IH.
    exists (spec :: pre), spec', post, st2. split_and!; [done| |done].
    simpl. by rewrite Hstep.
  - intros [= ->]. by exists [], spec, rest, st.
Qed.

Lemma handlerLoop_app st pre post :
  handlerLoop st (pre ++ post) =
    match handlerLoop st pre with
    | inl st1 => handlerLoop st1 post
    | inr stop => inr stop
    end.
Proof.
  revert st. induction pre as [|spec pre IH]; intros st; simpl; [done|].
  by destruct (handlerStep st spec).
Qed.

(** ** What a pass logs *)

Lemma addWatchForKind_None s sr s1 :
  addWatchForKind s sr = (s1, None) ->
  exists gvk,
    ForObject_GroupVersionKind (spec_ForObject (oh_Spec sr)) = Ok gvk /\
    ((watchedKinds s !! gvk = Some true /\ s1 = s) \/
     (watchedKinds s !! gvk <> Some true /\
      exists w, Watch (world s) gvk = (w, None) /\
        s1 = set_watchedKinds (called s w (EvWatch gvk None))
               (<[gvk := true]> (watchedKinds s)))).
Proof.
  unfold addWatchForKind.
  destruct (ForObject_GroupVersionKind _) as [gvk|p]; [|done].
  intros H. exists gvk. split; [done|].
  destruct (watchedKinds s !! gvk) as [[]|] eqn:Hk.
  - left. by simplify_eq.
  - right. split; [done|]. destruct (Watch (world s) gvk) as [w [e|]]; [done|].
    exists w. by simplify_eq.
  - right. split; [done|]. destruct (Watch (world s) gvk) as [w [e|]]; [done|].
    exists w. by simplify_eq.
Qed.

Lemma handlerLoop_trace st specs :
  exists tr,
    Forall (fun ev => isPipelineEvent ev) tr /\
    match handlerLoop st specs with
    | inl st' => trace (l_state st') = trace (l_state st) ++ tr
    | inr (s', _, _) => trace s' = trace (l_state st) ++ tr
    end.
Proof.
  revert st. induction specs as [|spec rest IH]; intros st; simpl.
  - exists []. by rewrite app_nil_r.
  - destruct (handlerStep st spec) as [st1|[[s' sr'] e]] eqn:Hstep.
    + apply handlerStep_inl in Hstep as (o & l1 & Htr1 & _).
      destruct (IH st1) as (tr & Hall & Htr).
      exists ([EvBuild spec None; EvHandle (BuildKey spec) o] ++ tr). split.
      * apply Forall_app. split; [|done]. by repeat constructor.
      * rewrite app_assoc, <- Htr1. by destruct (handlerLoop st1 rest) as [|[[] ?]].
    + apply handlerStep_inr in Hstep as (_ & _ & [(_ & _ & -> & _)|(p & _ & Htr)]).
      * exists []. by rewrite app_nil_r.
      * exists [EvBuild spec (Some p)]. split; [|done]. by repeat constructor.
Qed.

(** ** C8: the name the target is fetched under *)

(** C8. The target object is fetched under the reference's name, in the
    reference's namespace when that is not empty and in the instance's own
    namespace otherwise; once the watch stands and the kind is resolved,
    the one call of the repository for the target carries that name. *)
Theorem C8_target_namespace_defaults s sr :
  nn_Name (targetName sr) = ref_Name (spec_ForObject (oh_Spec sr)) /\
  nn_Namespace (targetName sr) =
    (if decide (ref_Namespace (spec_ForObject (oh_Spec sr)) = "")
     then oh_Namespace sr
     else ref_Namespace (spec_ForObject (oh_Spec sr))) /\
  forall s1 gvk,
    addWatchForKind s sr = (s1, None) ->
    ForObject_GroupVersionKind (spec_ForObject (oh_Spec sr)) = Ok gvk ->
    exists err rest,
      trace (doReconcile s sr).1.1
        = trace s1 ++ EvGetObject gvk (targetName sr) err :: rest /\
      Forall (fun ev => isPipelineEvent ev) rest.
Proof.
  split_and!.
  - unfold targetName. by case_decide.
  - unfold targetName. by repeat case_decide.
  - intros s1 gvk Hwatch Hgvk. unfold doReconcile. rewrite Hwatch, Hgvk.
    destruct (GetObject (world s1) gvk (targetName sr)) as [w [obj|p]] eqn:Hget; simpl.
    + set (st := {| l_state := called s1 w (EvGetObject gvk (targetName sr) None) |}).
      destruct (handlerLoop_trace st (spec_Handlers (oh_Spec sr))) as (tr & Hall & Htr).
      exists None, tr. split; [|done].
      destruct (handlerLoop st _) as [st1|[[s3 sr3] e]]; simpl; rewrite Htr;
        simpl; by rewrite <- app_assoc.
    + exists (Some p), []. by split.
Qed.

(** ** C4: the instance is gone *)

(** C4 (amended). When fetching the instance fails, with not-found as with
    any other error, Reconcile stops at once: it hands the fetch error back
    to its caller together with an empty result (no requeue asked for), and
    it has called nothing but the fetch. *)
Theorem C4_fetch_error_returned s req w e :
  Get (world s) req = (w, Err e) ->
  Reconcile s req = (called s w (EvGet req (Some e)), emptyResult, Some (Plain e)).
Proof. intros Hget. unfold Reconcile. by rewrite Hget. Qed.

(** ** C6: a subscription that cannot be created *)

(** C6. When the kind is not yet marked and creating the subscription
    fails, addWatchForKind returns that error and leaves the registry as it
    was, so the kind stays unmarked; doReconcile hands the same error on
    without going further; and the next call tries the subscription again,
    marking the kind if it then succeeds. *)
Theorem C6_watch_failure_not_marked s sr gvk w e :
  ForObject_GroupVersionKind (spec_ForObject (oh_Spec sr)) = Ok gvk ->
  watchedKinds s !! gvk <> Some true ->
  Watch (world s) gvk = (w, Some e) ->
  let s1 := called s w (EvWatch gvk (Some e)) in
  addWatchForKind s sr = (s1, Some (Plain e)) /\
  watchedKinds s1 = watchedKinds s /\
  watchedKinds s1 !! gvk <> Some true /\
  doReconcile s sr = (s1, sr, Some (Plain e)) /\
  forall w2,
    Watch (world s1) gvk = (w2, None) ->
    exists s2,
      addWatchForKind s1 sr = (s2, None) /\
      watchedKinds s2 !! gvk = Some true /\
      trace s2 = trace s ++ [EvWatch gvk (Some e); EvWatch gvk None].
Proof.
  intros Hgvk Hk Hw s1.
  assert (Hadd : addWatchForKind s sr = (s1, Some (Plain e))).
  { unfold addWatchForKind. rewrite Hgvk, Hw.
    by destruct (watchedKinds s !! gvk) as [[]|]. }
  split_and!; try done.
  - unfold doReconcile. by rewrite Hadd.
  - intros w2 Hw2.
    exists (set_watchedKinds (called s1 w2 (EvWatch gvk None))
              (<[gvk := true]> (watchedKinds s1))).
    split_and!.
    + unfold addWatchForKind. rewrite Hgvk, Hw2.
      change (watchedKinds s1) with (watchedKinds s).
      by destruct (watchedKinds s !! gvk) as [[]|] eqn:Hk1.
    + simpl. apply lookup_insert_eq.
    + simpl. by rewrite <- app_assoc.
Qed.

(** ** C7 and C10: the next pass *)

(** doReconcile writes to the status of the instance only *)
Lemma doReconcile_Spec s sr :
  oh_Spec (doReconcile s sr).1.2 = oh_Spec sr.
Proof.
  unfold doReconcile.
  destruct (addWatchForKind s sr) as [s1 [e|]]; [done|].
  destruct (ForObject_GroupVersionKind _) as [gvk|p]; [|done].
  destruct (GetObject _ _ _) as [w [obj|p]]; simpl; [|done].
  set (st := {| l_state := called s1 w (EvGetObject gvk (targetName sr) None) |}).
  destruct (handlerLoop st _) as [st1|[[s3 sr3] e]] eqn:Hloop; simpl.
  - apply handlerLoop_inl in Hloop as (_ & _ & _ & _ & -> & _). done.
  - apply handlerLoop_inr in Hloop as (pre & spec & post & st1 & _ & Hpre & Hlast).
    apply handlerLoop_inl in Hpre as (_ & _ & _ & _ & Hsr & _).
    apply handlerStep_inr in Hlast as (-> & _). by rewrite Hsr.
Qed.

(** C7. When the status patch succeeds, Reconcile returns no error and asks
    for the next pass after the interval of the instance as it holds it
    then, whatever doReconcile returned; the pass itself never touches the
    spec, so with a repository that answers the patch with the spec it was
    sent this is the interval of the instance as fetched. *)
Theorem C7_requeue_after_interval s req w sr0 s1 sr1 derr w' sr3 :
  Get (world s) req = (w, Ok sr0) ->
  doReconcile (called s w (EvGet req None)) sr0 = (s1, sr1, derr) ->
  Patch (world s1) (reported sr1 derr) sr0 = (w', Ok sr3) ->
  (Reconcile s req).2 = None /\
  (Reconcile s req).1.2
    = {| Requeue := false; RequeueAfter := spec_Interval (oh_Spec sr3) |} /\
  oh_Spec (reported sr1 derr) = oh_Spec sr0 /\
  (oh_Spec sr3 = oh_Spec (reported sr1 derr) ->
   RequeueAfter (Reconcile s req).1.2 = spec_Interval (oh_Spec sr0)).
Proof.
  intros Hget Hdo Hpatch.
  rewrite (Reconcile_fetched _ _ _ _ _ _ _ Hget Hdo _ _ Hpatch). simpl.
  assert (Hspec : oh_Spec sr1 = oh_Spec sr0).
  { pose proof (doReconcile_Spec (called s w (EvGet req None)) sr0) as H.
    by rewrite Hdo in H. }
  split_and!; try done. intros ->. simpl. by rewrite Hspec.
Qed.

(** C10. When doReconcile fails and the status patch then succeeds, the
    instance sent carries Ready=False with reason Error and the failure's
    text, and Reconcile returns a nil error with RequeueAfter set to the
    interval: the scheduler sees an ordinary pass. *)
Theorem C10_failed_pass_requeues_at_interval s req w sr0 s1 sr1 e w' sr3 :
  Get (world s) req = (w, Ok sr0) ->
  doReconcile (called s w (EvGet req None)) sr0 = (s1, sr1, Some e) ->
  Patch (world s1) (reported sr1 (Some e)) sr0 = (w', Ok sr3) ->
  Reconcile s req =
    (called s1 w' (EvPatch (reported sr1 (Some e)) None),
     {| Requeue := false; RequeueAfter := spec_Interval (oh_Spec sr3) |},
     None) /\
  FindStatusCondition (status_Conditions (oh_Status (reported sr1 (Some e)))) "Ready"
    = Some {| cond_Type := "Ready";
              cond_Status := ConditionFalse;
              cond_ObservedGeneration := oh_Generation sr1;
              cond_Reason := "Error";
              cond_Message := Error e |} /\
  (oh_Spec sr3 = oh_Spec (reported sr1 (Some e)) ->
   spec_Interval (oh_Spec sr3) = spec_Interval (oh_Spec sr0)).
Proof.
  intros Hget Hdo Hpatch. split_and!.
  - by rewrite (Reconcile_fetched _ _ _ _ _ _ _ Hget Hdo _ _ Hpatch).
  - apply reported_Ready.
  - intros ->. simpl.
    pose proof (doReconcile_Spec (called s w (EvGet req None)) sr0) as H.
    rewrite Hdo in H. simpl in H. by rewrite H.
Qed.

(** ** C3: a handler of no kind *)


(** ** C1: the records after a pass *)

Lemma records_cons k x (l : list HandlerStatus) :
  records k (x :: l) = (if decide (hs_Key x = k) then S (records k l) else records k l).
Proof. unfold records. rewrite filter_cons. by case_decide. Qed.

Lemma records_absent k (l : list HandlerStatus) :
  k ∉ (hs_Key <$> l) -> records k l = 0%nat.
Proof.
  induction l as [|x l IH]; [done|].
  rewrite fmap_cons, not_elem_of_cons, records_cons. intros [Hne Hl].
  rewrite decide_False by done. auto.
Qed.

Lemma records_NoDup k (l : list HandlerStatus) :
  NoDup (hs_Key <$> l) ->
  records k l = (if decide (k ∈ (hs_Key <$> l)) then 1 else 0)%nat.
Proof.
  induction l as [|x l IH]; [done|].
  rewrite fmap_cons, NoDup_cons, records_cons. intros [Hx Hl].
  destruct (decide (hs_Key x = k)) as [<-|Hne].
  - rewrite records_absent by done. rewrite decide_True; [done|]. by left.
  - rewrite IH by done. destruct (decide (k ∈ (hs_Key <$> l))) as [Hi|Hi].
    + rewrite decide_True; [done|]. by right.
    + rewrite decide_False; [done|]. intros [?|?]%elem_of_cons; congruence.
Qed.

(** C1 (amended). Take an instance whose status list holds at most one
    record per key when the pass starts, and handlers that leave the key of
    the record they are given alone.  After a pass in which doReconcile gets
    past the handler loop, the list holds exactly one record for each key of
    a configured handler and none for any other key. *)
Theorem C1_one_record_per_configured_key s sr s' sr' err :
  KeepsKey ->
  NoDup (hs_Key <$> status_HandlerStatus (oh_Status sr)) ->
  doReconcile s sr = (s', sr', err) ->
  completedLoop err ->
  forall k,
    records k (status_HandlerStatus (oh_Status sr'))
      = (if decide (k ∈ (BuildKey <$> spec_Handlers (oh_Spec sr))) then 1 else 0)%nat.
Proof.
  intros Hk Hnd Hdo Hc k.
  destruct (doReconcile_completed _ _ _ _ _ Hdo Hc)
    as (s1 & gvk & w & obj & st1 & _ & _ & _ & Hloop & _ & -> & _).
  apply handlerLoop_inl in Hloop as (outs & _ & _ & _ & _ & _ & Hex & Hkeep).
  destruct (Hkeep Hk) as (Hnd1 & Hin & _ & _). simpl in *.
  assert (Hmem : forall k', k' ∈ (hs_Key <$> prune (l_existingStatuses st1) (statuses st1))
                   <-> k' ∈ (BuildKey <$> spec_Handlers (oh_Spec sr))).
  { intros k'. rewrite prune_keys, list_elem_of_filter, Hex, Hin, lookup_empty.
    split; [intros [[?|?] _]; done|tauto]. }
  rewrite records_NoDup.
  - destruct (decide (k ∈ (BuildKey <$> spec_Handlers (oh_Spec sr)))) as [Hj|Hj].
    + rewrite decide_True; [done|]. by apply Hmem.
    + rewrite decide_False; [done|]. by rewrite Hmem.
  - rewrite prune_keys. apply NoDup_filter. auto.
Qed.

(** at most one record per key is kept by every pass, also by one that
    returns early: a list the reconciler built from nothing has it *)
Lemma doReconcile_NoDup s sr :
  KeepsKey ->
  NoDup (hs_Key <$> status_HandlerStatus (oh_Status sr)) ->
  NoDup (hs_Key <$> status_HandlerStatus (oh_Status (doReconcile s sr).1.2)).
Proof.
  intros Hk Hnd. unfold doReconcile.
  destruct (addWatchForKind s sr) as [s1 [e|]]; [done|].
  destruct (ForObject_GroupVersionKind _) as [gvk|p]; [|done].
  destruct (GetObject _ _ _) as [w [obj|p]]; simpl; [|done].
  set (st := {| l_state := called s1 w (EvGetObject gvk (targetName sr) None) |}).
  destruct (handlerLoop st _) as [st1|[[s3 sr3] e]] eqn:Hloop; simpl.
  - apply handlerLoop_inl in Hloop as (outs & _ & _ & _ & _ & _ & _ & Hkeep).
    destruct (Hkeep Hk) as (Hnd1 & _). rewrite prune_keys. apply NoDup_filter. auto.
  - apply handlerLoop_inr in Hloop as (pre & spec & post & st1 & _ & Hpre & Hlast).
    apply handlerLoop_inl in Hpre as (outs & _ & _ & _ & _ & _ & _ & Hkeep).
    apply handlerStep_inr in Hlast as (Hsr3 & _). rewrite Hsr3.
    destruct (Hkeep Hk) as (Hnd1 & _). auto.
Qed.

(** ** C2: a handler that fails *)

Lemma handled_app (tr1 tr2 : list Event) : handled (tr1 ++ tr2) = handled tr1 ++ handled tr2.
Proof. apply omap_app. Qed.

Lemma handled_pipelineEvents specs outs :
  length outs = length specs ->
  handled (pipelineEvents specs outs) = zip (BuildKey <$> specs) outs.
Proof.
  revert outs. induction specs as [|spec specs IH]; intros [|o outs] Hlen;
    simplify_eq/=; [done|].
  unfold pipelineEvents in *. simpl. f_equal. by apply IH.
Qed.

Lemma addWatchForKind_handled s sr :
  handled (trace (addWatchForKind s sr).1) = handled (trace s).
Proof.
  unfold addWatchForKind.
  destruct (ForObject_GroupVersionKind _) as [gvk|p]; [|done].
  destruct (Watch (world s) gvk) as [w [e|]] eqn:Hw;
    destruct (watchedKinds s !! gvk) as [[]|]; simpl; try done;
    by rewrite handled_app, app_nil_r.
Qed.

Lemma Reconcile_sends s req w sr0 s1 sr1 derr :
  Get (world s) req = (w, Ok sr0) ->
  doReconcile (called s w (EvGet req None)) sr0 = (s1, sr1, derr) ->
  exists r, trace (Reconcile s req).1.1 = trace s1 ++ [EvPatch (reported sr1 derr) r].
Proof.
  intros Hget Hdo.
  destruct (Patch (world s1) (reported sr1 derr) sr0) as [w' r] eqn:Hpatch.
  rewrite (Reconcile_fetched _ _ _ _ _ _ _ Hget Hdo _ _ Hpatch). by eexists.
Qed.


(** ** C9: where a failure ends up *)





(** ** C5: one subscription per kind *)

Lemma subscriptions_snoc gvk (tr : list Event) ev :
  subscriptions gvk (tr ++ [ev])
    = (subscriptions gvk tr + (if isSubscription gvk ev then 1 else 0))%nat.
Proof.
  unfold subscriptions. rewrite filter_app, length_app. f_equal.
  rewrite filter_cons, filter_nil. by destruct (isSubscription gvk ev).
Qed.

Lemma isSubscription_other gvk ev : isWatchEvent ev = false -> isSubscription gvk ev = false.
Proof. by destruct ev. Qed.

Lemma lookup_moved (workers : list Pc) i pc j pc' :
  <[i := pc]> workers !! j = Some pc' ->
  (j = i /\ pc' = pc) \/ (j <> i /\ workers !! j = Some pc').
Proof. intros [(-> & -> & _)|[? ?]]%list_lookup_insert_Some; auto. Qed.

(** a worker that is not past [Lock] moves without disturbing the others *)
Lemma mutexInv_aside sys i pc pc' :
  mutexInv sys ->
  sys_workers sys !! i = Some pc ->
  holdsMutex pc = false -> holdsMutex pc' = false ->
  mutexInv (moveWorker sys i (sys_state sys) (sys_mutex sys) pc').
Proof.
  intros [(Hm & Hnone & Hcons)|(h & pch & Hm & Hh & Hothers & Hpc)] Hi Hpc0 Hpc'.
  - left. split_and!; [done| |done].
    intros j pcj [[-> ->]|[_ Hj]]%lookup_moved; eauto.
  - right. exists h, pch. simpl.
    assert (h <> i).
    { intros ->. rewrite Hi in Hh. injection Hh as ->. by destruct pch. }
    split_and!; [done| | |done].
    + by rewrite list_lookup_insert_ne.
    + intros j pcj Hne [[-> ->]|[_ Hj]]%lookup_moved; eauto.
Qed.

(** the worker past [Lock] is the only one that can be *)
Lemma mutexInv_holder sys i pc :
  mutexInv sys ->
  sys_workers sys !! i = Some pc ->
  holdsMutex pc = true ->
  sys_mutex sys = true /\
  (forall j pc', j <> i -> sys_workers sys !! j = Some pc' -> holdsMutex pc' = false) /\
  match pc with
  | AtCheck _ => consistent (sys_state sys)
  | AtWatch gvk =>
    consistent (sys_state sys) /\ watchedKinds (sys_state sys) !! gvk <> Some true
  | AtMark gvk =>
    watchedKinds (sys_state sys) !! gvk <> Some true /\
    subscriptions gvk (trace (sys_state sys)) = 1%nat /\
    forall g, g <> gvk ->
      subscriptions g (trace (sys_state sys))
        = (if decide (watchedKinds (sys_state sys) !! g = Some true) then 1 else 0)%nat
  | _ => False
  end.
Proof.
  intros [(Hm & Hnone & Hcons)|(h & pch & Hm & Hh & Hothers & Hpc)] Hi Hhold.
  - apply Hnone in Hi. congruence.
  - destruct (decide (i = h)) as [->|Hne].
    + rewrite Hi in Hh. injection Hh as <-. done.
    + apply Hothers in Hi; [congruence|done].
Qed.

(** the worker past [Lock] returns: the mutex is free again *)
Lemma mutexInv_release sys i pc s err :
  sys_workers sys !! i = Some pc ->
  (forall j pc', j <> i -> sys_workers sys !! j = Some pc' -> holdsMutex pc' = false) ->
  consistent s ->
  mutexInv (moveWorker sys i s false (Returned err)).
Proof.
  intros Hi Hothers Hcons. left. simpl. split_and!; [done| |done].
  intros j pcj [[-> ->]|[Hne Hj]]%lookup_moved; eauto.
Qed.

(** the worker past [Lock] goes on to the next line *)
Lemma mutexInv_advance sys i pc s pc' :
  sys_workers sys !! i = Some pc ->
  (forall j pc', j <> i -> sys_workers sys !! j = Some pc' -> holdsMutex pc' = false) ->
  match pc' with
  | AtCheck _ => consistent s
  | AtWatch gvk => consistent s /\ watchedKinds s !! gvk <> Some true
  | AtMark gvk =>
    watchedKinds s !! gvk <> Some true /\
    subscriptions gvk (trace s) = 1%nat /\
    forall g, g <> gvk ->
      subscriptions g (trace s)
        = (if decide (watchedKinds s !! g = Some true) then 1 else 0)%nat
  | _ => False
  end ->
  mutexInv (moveWorker sys i s true pc').
Proof.
  intros Hi Hothers Hpc'. right. exists i, pc'. simpl. split_and!; [done| | |done].
  - apply list_lookup_insert_eq. by eapply lookup_lt_Some.
  - intros j pcj Hne. rewrite list_lookup_insert_ne by done. eauto.
Qed.

Lemma mutexInv_workerStep i sys sys' :
  mutexInv sys -> workerStep i sys = Some sys' -> mutexInv sys'.
Proof.
  intros Hinv. unfold workerStep.
  destruct (sys_workers sys !! i) as [pc|] eqn:Hi; [|done].
  destruct pc as [sr|gvk|gvk|gvk|gvk|err].
  - (* line 201 *)
    destruct (ForObject_GroupVersionKind _) as [gvk|e]; intros [= <-];
      by eapply mutexInv_aside.
  - (* line 206 *)
    destruct (sys_mutex sys) eqn:Hm; [done|]. intros [= <-].
    destruct Hinv as [(_ & Hnone & Hcons)|(h & pch & Hm' & _)]; [|congruence].
    eapply mutexInv_advance; eauto.
  - (* line 209 *)
    destruct (mutexInv_holder _ _ _ Hinv Hi eq_refl) as (Hm & Hothers & Hcons).
    destruct (watchedKinds (sys_state sys) !! gvk) as [[]|] eqn:Hk; intros [= <-].
    + by eapply mutexInv_release.
    + rewrite Hm. eapply mutexInv_advance; eauto. split; [done|congruence].
    + rewrite Hm. eapply mutexInv_advance; eauto. split; [done|congruence].
  - (* line 216 *)
    destruct (mutexInv_holder _ _ _ Hinv Hi eq_refl) as (Hm & Hothers & Hcons & Hk).
    destruct (Watch (world (sys_state sys)) gvk) as [w [e|]] eqn:Hw; intros [= <-].
    + eapply mutexInv_release; eauto.
      intros g. simpl. rewrite subscriptions_snoc. simpl. rewrite Nat.add_0_r. apply Hcons.
    + rewrite Hm. eapply mutexInv_advance; eauto. simpl. split_and!; [done| |].
      * rewrite subscriptions_snoc, Hcons. simpl.
        rewrite decide_False by done. by rewrite bool_decide_eq_true_2.
      * intros g Hne. rewrite subscriptions_snoc, Hcons. simpl.
        rewrite bool_decide_eq_false_2 by done. lia.
  - (* line 239 *)
    destruct (mutexInv_holder _ _ _ Hinv Hi eq_refl) as (Hm & Hothers & Hk & Hone & Hrest).
    intros [= <-]. eapply mutexInv_release; eauto.
    intros g. simpl. destruct (decide (g = gvk)) as [->|Hne].
    + rewrite lookup_insert_eq. by rewrite decide_True.
    + rewrite lookup_insert_ne by done. by apply Hrest.
  - done.
Qed.

Lemma mutexInv_systemStep m sys : mutexInv sys -> mutexInv (systemStep m sys).
Proof.
  intros Hinv. destruct m as [i|w ev]; simpl.
  - destruct (workerStep i sys) as [sys'|] eqn:Hstep; [|done].
    by eapply mutexInv_workerStep.
  - destruct (isWatchEvent ev) eqn:Hev; [done|].
    assert (Hsub : forall g, subscriptions g (trace (sys_state sys) ++ [ev])
                             = subscriptions g (trace (sys_state sys))).
    { intros g. rewrite subscriptions_snoc, isSubscription_other by done. lia. }
    destruct Hinv as [(Hm & Hnone & Hcons)|(h & pch & Hm & Hh & Hothers & Hpc)].
    + left. split_and!; [done..|]. intros g. simpl. by rewrite Hsub.
    + right. exists h, pch. split_and!; [done..|].
      destruct pch as [| | g | g | g |]; simpl in *; try done.
      * intros g'. simpl. by rewrite Hsub.
      * destruct Hpc as [Hcons ?]. split; [|done]. intros g'. simpl. by rewrite Hsub.
      * destruct Hpc as (? & ? & Hrest). rewrite Hsub. split_and!; [done..|].
        intros g' ?. rewrite Hsub. auto.
Qed.

Lemma mutexInv_run schedule sys : mutexInv sys -> mutexInv (run schedule sys).
Proof.
  revert sys. induction schedule as [|m rest IH]; intros sys Hinv; [done|].
  simpl. by apply IH, mutexInv_systemStep.
Qed.

Lemma mutexInv_start w (srs : list ObjectHandler) : mutexInv (startWorkers w srs).
Proof.
  left. split_and!; [done| |].
  - intros i pc. simpl. rewrite list_lookup_fmap.
    destruct (srs !! i); intros [=]; by subst.
  - intros gvk. simpl. by rewrite lookup_empty.
Qed.

Lemma mutexInv_bound sys gvk :
  mutexInv sys -> (subscriptions gvk (trace (sys_state sys)) <= 1)%nat.
Proof.
  intros [(_ & _ & Hcons)|(h & pch & _ & _ & _ & Hpc)].
  - rewrite Hcons. case_decide; lia.
  - destruct pch as [| | g | g | g |]; try done.
    + rewrite Hpc. case_decide; lia.
    + destruct Hpc as [Hcons _]. rewrite Hcons. case_decide; lia.
    + destruct Hpc as (_ & Hone & Hrest).
      destruct (decide (gvk = g)) as [->|Hne]; [lia|].
      rewrite Hrest by done. case_decide; lia.
Qed.

Lemma run_Work i rest sys sys' :
  workerStep i sys = Some sys' -> run (Work i :: rest) sys = run rest sys'.
Proof. intros H. simpl. by rewrite H. Qed.

Lemma run_blocked i rest sys :
  workerStep i sys = None -> run (Work i :: rest) sys = run rest sys.
Proof. intros H. simpl. by rewrite H. Qed.

Lemma workerStep_AtEntry i sys sr :
  sys_workers sys !! i = Some (AtEntry sr) ->
  workerStep i sys =
    Some (moveWorker sys i (sys_state sys) (sys_mutex sys)
            match ForObject_GroupVersionKind (spec_ForObject (oh_Spec sr)) with
            | Err e => Returned (Some (Plain e))
            | Ok gvk => AtLock gvk
            end).
Proof. unfold workerStep. intros ->. by destruct (ForObject_GroupVersionKind _). Qed.

Lemma workerStep_Returned i sys err :
  sys_workers sys !! i = Some (Returned err) -> workerStep i sys = None.
Proof. unfold workerStep. by intros ->. Qed.

Lemma moveWorker_again sys i s m pc s' m' pc' :
  moveWorker (moveWorker sys i s m pc) i s' m' pc' = moveWorker sys i s' m' pc'.
Proof. unfold moveWorker. simpl. by rewrite list_insert_insert_eq. Qed.

Lemma moveWorker_lookup sys i s m pc pc0 :
  sys_workers sys !! i = Some pc0 ->
  sys_workers (moveWorker sys i s m pc) !! i = Some pc.
Proof. intros Hi. simpl. apply list_lookup_insert_eq. by eapply lookup_lt_Some. Qed.

Lemma moveWorker_state sys i s m pc : sys_state (moveWorker sys i s m pc) = s.
Proof. done. Qed.

Lemma moveWorker_mutex sys i s m pc : sys_mutex (moveWorker sys i s m pc) = m.
Proof. done. Qed.

(** a worker left alone goes through [addWatchForKind] in five steps *)
Lemma worker_alone sys i sr :
  sys_mutex sys = false ->
  sys_workers sys !! i = Some (AtEntry sr) ->
  run [Work i; Work i; Work i; Work i; Work i] sys
    = moveWorker sys i (addWatchForKind (sys_state sys) sr).1 false
        (Returned (addWatchForKind (sys_state sys) sr).2).
Proof.
  intros Hm Hi. unfold addWatchForKind.
  rewrite (run_Work _ _ _ _ (workerStep_AtEntry _ _ _ Hi)), Hm.
  destruct (ForObject_GroupVersionKind _) as [gvk|p].
  2:{ rewrite !run_blocked; [|eapply workerStep_Returned, moveWorker_lookup, Hi..].
      done. }
  erewrite run_Work.
  2:{ unfold workerStep. erewrite moveWorker_lookup by done.
      cbv beta iota zeta. by rewrite ?moveWorker_state, ?moveWorker_mutex. }
  rewrite moveWorker_again.
  erewrite run_Work.
  2:{ unfold workerStep. erewrite moveWorker_lookup by done.
      cbv beta iota zeta. rewrite ?moveWorker_state, ?moveWorker_mutex.
      instantiate (1 := match watchedKinds (sys_state sys) !! gvk with
                        | Some true => _ | _ => _ end).
      by destruct (watchedKinds (sys_state sys) !! gvk) as [[]|]. }
  destruct (watchedKinds (sys_state sys) !! gvk) as [[]|] eqn:Hk;
    cbv beta iota; rewrite !moveWorker_again.
  - rewrite !run_blocked; [|eapply workerStep_Returned, moveWorker_lookup, Hi..].
    done.
  - erewrite run_Work.
    2:{ unfold workerStep. erewrite moveWorker_lookup by done.
        cbv beta iota zeta. rewrite ?moveWorker_state, ?moveWorker_mutex.
        instantiate (1 := match Watch (world (sys_state sys)) gvk with
                          | (w, Some e) => _ | (w, None) => _ end).
        by destruct (Watch (world (sys_state sys)) gvk) as [w [e|]]. }
    destruct (Watch (world (sys_state sys)) gvk) as [w [e|]];
      cbv beta iota; rewrite !moveWorker_again.
    + rewrite !run_blocked; [|eapply workerStep_Returned, moveWorker_lookup, Hi..].
      done.
    + erewrite run_Work.
      2:{ unfold workerStep. erewrite moveWorker_lookup by done.
          cbv beta iota zeta. by rewrite ?moveWorker_state, ?moveWorker_mutex. }
      by rewrite !moveWorker_again.
  - erewrite run_Work.
    2:{ unfold workerStep. erewrite moveWorker_lookup by done.
        cbv beta iota zeta. rewrite ?moveWorker_state, ?moveWorker_mutex.
        instantiate (1 := match Watch (world (sys_state sys)) gvk with
                          | (w, Some e) => _ | (w, None) => _ end).
        by destruct (Watch (world (sys_state sys)) gvk) as [w [e|]]. }
    destruct (Watch (world (sys_state sys)) gvk) as [w [e|]];
      cbv beta iota; rewrite !moveWorker_again.
    + rewrite !run_blocked; [|eapply workerStep_Returned, moveWorker_lookup, Hi..].
      done.
    + erewrite run_Work.
      2:{ unfold workerStep. erewrite moveWorker_lookup by done.
          cbv beta iota zeta. by rewrite ?moveWorker_state, ?moveWorker_mutex. }
      by rewrite !moveWorker_again.
Qed.

(** C5. A call of addWatchForKind for a kind already marked returns nil at
    once and leaves the reconciler, the world and the log as they were.  And
    from the state SetupWithManager leaves, whatever instances the workers
    start on and however their steps through addWatchForKind are
    interleaved with each other and with the rest of the process, at most
    one subscription is created for any kind. *)
Theorem C5_addWatchForKind_idempotent :
  (forall s sr gvk,
     ForObject_GroupVersionKind (spec_ForObject (oh_Spec sr)) = Ok gvk ->
     watchedKinds s !! gvk = Some true ->
     addWatchForKind s sr = (s, None)) /\
  (forall w (srs : list ObjectHandler) schedule gvk,
     (subscriptions gvk (trace (sys_state (run schedule (startWorkers w srs)))) <= 1)%nat).
Proof.
  split.
  - intros s sr gvk Hgvk Hk. unfold addWatchForKind. by rewrite Hgvk, Hk.
  - intros w srs schedule gvk. apply mutexInv_bound, mutexInv_run, mutexInv_start.
Qed.

End Properties.

(** * The theorems at work on the small cluster *)

Lemma triple_eta {A B D : Type} (p : A * B * D) : p = (p.1.1, p.1.2, p.2).
Proof. by destruct p as [[? ?] ?]. Defined.

Lemma Toy_KeepsKey sc : @KeepsKey Toy.types (Toy.cluster sc).
Proof. intros reporter w obj status. reflexivity. Defined.

(** ** C1 *)

(** C1, as stated, fails: an instance whose status already holds two
    records of the key of its one handler keeps both through a pass that
    completes the loop. *)
Lemma C1_counterexample :
  let out := @doReconcile Toy.types (Toy.cluster (Toy.calm Toy.twice)) Toy.start Toy.twice in
  completedLoop out.2 /\
  "comment:mr" ∈ (@BuildKey _ (Toy.cluster (Toy.calm Toy.twice))
                    <$> spec_Handlers (oh_Spec Toy.twice)) /\
  records "comment:mr" (status_HandlerStatus (oh_Status out.1.2)) = 2%nat.
Proof.
  split_and!.
  - vm_compute. exact I.
  - apply list_elem_of_here.
  - vm_compute. reflexivity.
Qed.

Lemma C1_witness :
  let out := @doReconcile Toy.types (Toy.cluster (Toy.rejecting "approve:b" Toy.three))
               Toy.start Toy.three in
  NoDup (hs_Key <$> status_HandlerStatus (oh_Status Toy.three)) /\
  completedLoop out.2 /\
  forall k,
    records k (status_HandlerStatus (oh_Status out.1.2))
      = (if decide (k ∈ ["comment:a"; "approve:b"; "comment:c"]) then 1 else 0)%nat.
Proof.
  intros out.
  assert (Hnd : NoDup (hs_Key <$> status_HandlerStatus (oh_Status Toy.three))).
  { apply (bool_decide_unpack _). vm_compute. exact I. }
  assert (Hc : completedLoop out.2) by (vm_compute; exact I).
  split_and!; [exact Hnd|exact Hc|].
  apply (@C1_one_record_per_configured_key Toy.types
           (Toy.cluster (Toy.rejecting "approve:b" Toy.three))
           Toy.start Toy.three out.1.1 out.1.2 out.2
           (Toy_KeepsKey _) Hnd).
  - apply triple_eta.
  - exact Hc.
Defined.

(** why the handlers are asked to leave the key alone: a handler that
    writes its own key into the record makes the pass drop the record, and
    the configured key is left with none *)
Example renaming_handler_loses_record :
  let out := @doReconcile Toy.types (Toy.renaming (Toy.calm Toy.fresh)) Toy.start Toy.fresh in
  completedLoop out.2 /\
  handled (trace out.1.1) = [("comment:mr", None)] /\
  status_HandlerStatus (oh_Status out.1.2) = [].
Proof. vm_compute. by split_and!. Qed.

(** ** C2 *)



(** ** C3 *)



(** ** C4 *)

(** C4, as stated, fails: when the instance is gone Reconcile returns the
    not-found error to its caller. *)
Lemma C4_counterexample :
  let C := Toy.cluster (Toy.gone Toy.three) in
  @Get Toy.types C (world Toy.start) Toy.request = (1%nat, Err Toy.notFound) /\
  perr_notfound Toy.notFound = true /\
  (@Reconcile Toy.types C Toy.start Toy.request).2 = Some (Plain Toy.notFound).
Proof. vm_compute. by split_and!. Qed.

Lemma C4_witness :
  let C := Toy.cluster (Toy.gone Toy.three) in
  @Reconcile Toy.types C Toy.start Toy.request
    = (@called Toy.types Toy.start 1%nat (EvGet Toy.request (Some Toy.notFound)),
       emptyResult, Some (Plain Toy.notFound)).
Proof.
  intros C.
  apply (@C4_fetch_error_returned Toy.types C Toy.start Toy.request 1%nat Toy.notFound).
  reflexivity.
Defined.

(** ** C5 *)

Lemma C5_witness :
  let C := Toy.cluster (Toy.calm Toy.three) in
  @addWatchForKind Toy.types C Toy.watching Toy.three = (Toy.watching, None) /\
  (subscriptions Toy.deployment
     (trace (sys_state
        (@run Toy.types C
           [Work 0; Work 1; Work 0; Work 1; Work 1; Work 0; Work 0; Work 1;
            Work 0; Work 1; Work 1; Work 1]
           (@startWorkers Toy.types 0%nat [Toy.three; Toy.remote])))) <= 1)%nat.
Proof.
  intros C. destruct (@C5_addWatchForKind_idempotent Toy.types C) as [Hidem Honce].
  split.
  - apply (Hidem Toy.watching Toy.three Toy.deployment); reflexivity.
  - apply Honce.
Defined.

(** two workers that meet a new kind together: the one that loses the race
    for the mutex finds the kind marked; one subscription is created *)
Example race_one_subscription :
  let C := Toy.cluster (Toy.calm Toy.three) in
  let sys := @run Toy.types C
               [Work 0; Work 1; Work 0; Work 1; Work 1; Work 0; Work 0; Work 1;
                Work 0; Work 1; Work 1; Work 1]
               (@startWorkers Toy.types 0%nat [Toy.three; Toy.remote]) in
  sys_workers sys = [Returned None; Returned None] /\
  sys_mutex sys = false /\
  trace (sys_state sys) = [EvWatch Toy.deployment None] /\
  subscriptions Toy.deployment (trace (sys_state sys)) = 1%nat.
Proof. vm_compute. by split_and!. Qed.

(** ** C6 *)

Lemma C6_witness :
  let C := Toy.cluster (Toy.noWatchAtFirst Toy.three) in
  let s1 := @called Toy.types Toy.start 1%nat (EvWatch Toy.deployment (Some Toy.noMatch)) in
  watchedKinds Toy.start !! Toy.deployment <> Some true /\
  @addWatchForKind Toy.types C Toy.start Toy.three = (s1, Some (Plain Toy.noMatch)) /\
  watchedKinds s1 !! Toy.deployment <> Some true /\
  @doReconcile Toy.types C Toy.start Toy.three = (s1, Toy.three, Some (Plain Toy.noMatch)) /\
  exists s2,
    @addWatchForKind Toy.types C s1 Toy.three = (s2, None) /\
    watchedKinds s2 !! Toy.deployment = Some true /\
    trace s2 = [EvWatch Toy.deployment (Some Toy.noMatch); EvWatch Toy.deployment None].
Proof.
  intros C s1.
  assert (Hk : watchedKinds Toy.start !! Toy.deployment <> Some true) by done.
  destruct (@C6_watch_failure_not_marked Toy.types C Toy.start Toy.three Toy.deployment
              1%nat Toy.noMatch eq_refl Hk eq_refl) as (Hadd & _ & Hk1 & Hdo & Hretry).
  split_and!; [exact Hk|exact Hadd|exact Hk1|exact Hdo|].
  exact (Hretry 2%nat eq_refl).
Defined.

(** ** C7 *)

Lemma C7_witness :
  let C := Toy.cluster (Toy.rejecting "approve:b" Toy.three) in
  let out := @Reconcile Toy.types C Toy.start Toy.request in
  spec_Interval (oh_Spec Toy.three) = 10000000000%Z /\
  out.2 = None /\
  out.1.2 = {| Requeue := false; RequeueAfter := 10000000000 |}.
Proof.
  intros C out. split; [reflexivity|].
  set (s0 := @called Toy.types Toy.start 1%nat (EvGet Toy.request None)).
  set (pass := @doReconcile Toy.types C s0 Toy.three).
  destruct (@C7_requeue_after_interval Toy.types C Toy.start Toy.request 1%nat Toy.three
              pass.1.1 pass.1.2 pass.2 (S (world pass.1.1)) (reported pass.1.2 pass.2)
              eq_refl (triple_eta pass) eq_refl) as (Herr & Hres & _ & _).
  split; [exact Herr|]. unfold out. rewrite Hres. reflexivity.
Defined.

(** ** C8 *)

Lemma C8_witness :
  let C := Toy.cluster (Toy.calm Toy.remote) in
  @targetName Toy.types Toy.remote = {| nn_Namespace := "prod"; nn_Name := "app" |} /\
  @targetName Toy.types Toy.three = {| nn_Namespace := "team-a"; nn_Name := "app" |} /\
  exists err rest,
    trace (@doReconcile Toy.types C Toy.start Toy.remote).1.1
      = [EvWatch Toy.deployment None]
          ++ EvGetObject Toy.deployment {| nn_Namespace := "prod"; nn_Name := "app" |} err
             :: rest /\
    Forall (fun ev => isPipelineEvent ev) rest.
Proof.
  intros C. split; [reflexivity|]. split; [reflexivity|].
  destruct (@C8_target_namespace_defaults Toy.types C Toy.start Toy.remote) as (_ & _ & Hget).
  exact (Hget (@addWatchForKind Toy.types C Toy.start Toy.remote).1 Toy.deployment
           eq_refl eq_refl).
Defined.

(** ** C9 *)



(** ** C10 *)

Lemma C10_witness :
  let C := Toy.cluster (Toy.targetAbsent Toy.three) in
  let out := @Reconcile Toy.types C Toy.start Toy.request in
  (@doReconcile Toy.types C (@called Toy.types Toy.start 1%nat (EvGet Toy.request None))
     Toy.three).2 = Some (Plain Toy.targetNotFound) /\
  out.2 = None /\
  out.1.2 = {| Requeue := false; RequeueAfter := 10000000000 |}.
Proof.
  intros C out.
  set (s0 := @called Toy.types Toy.start 1%nat (EvGet Toy.request None)).
  set (pass := @doReconcile Toy.types C s0 Toy.three).
  assert (Hfail : pass.2 = Some (Plain Toy.targetNotFound)) by reflexivity.
  split; [exact Hfail|].
  destruct (@C10_failed_pass_requeues_at_interval Toy.types C Toy.start Toy.request 1%nat
              Toy.three pass.1.1 pass.1.2 (Plain Toy.targetNotFound)
              (S (world pass.1.1)) (reported pass.1.2 (Some (Plain Toy.targetNotFound)))
              eq_refl (triple_eta pass) eq_refl) as (Hrec & _ & _).
  unfold out. rewrite Hrec. split; reflexivity.
Defined.

(** * Further properties of the controller *)

Section Coverage.
Context {T : Types} {C : Cluster}.

Implicit Types (s : State) (sr : ObjectHandler) (st : Loop).

Local Abbreviation statuses st := (status_HandlerStatus (oh_Status (l_sr st))).
Local Abbreviation keysOf sr := (hs_Key <$> status_HandlerStatus (oh_Status sr)).
Local Abbreviation handlerKeys sr := (BuildKey <$> spec_Handlers (oh_Spec sr)).

(** ** What doReconcile leaves alone *)

Lemma set_HandlerStatus_eta sr :
  sr = set_HandlerStatus sr (status_HandlerStatus (oh_Status sr)).
Proof. by destruct sr as [? ? ? ? []]. Qed.

Lemma set_HandlerStatus_twice sr l l' :
  set_HandlerStatus (set_HandlerStatus sr l) l' = set_HandlerStatus sr l'.
Proof. done. Qed.

(** the instance doReconcile hands back is the one it was given with
    another list of handler records *)
Lemma doReconcile_frame s sr :
  (doReconcile s sr).1.2
    = set_HandlerStatus sr (status_HandlerStatus (oh_Status (doReconcile s sr).1.2)).
Proof.
  unfold doReconcile.
  destruct (addWatchForKind s sr) as [s1 [e|]]; [apply set_HandlerStatus_eta|].
  destruct (ForObject_GroupVersionKind _) as [gvk|p]; [|apply set_HandlerStatus_eta].
  destruct (GetObject _ _ _) as [w [obj|p]]; simpl; [|apply set_HandlerStatus_eta].
  set (st := {| l_state := called s1 w (EvGetObject gvk (targetName sr) None) |}).
  destruct (handlerLoop st _) as [st1|[[s3 sr3] e]] eqn:Hloop; simpl.
  - apply handlerLoop_inl in Hloop as (outs & _ & _ & _ & -> & _). done.
  - apply handlerLoop_inr in Hloop as (pre & spec & post & st1 & _ & Hpre & Hlast).
    apply handlerLoop_inl in Hpre as (outs & _ & _ & _ & Hsr & _).
    apply handlerStep_inr in Hlast as (Hsr3 & _). rewrite Hsr3, Hsr. done.
Qed.

(** X1. doReconcile writes nothing of the instance but status.handlerStatus:
    namespace, name, generation, spec and conditions come back as they went
    in, whether the pass completes or returns early. *)
Theorem X1_doReconcile_writes_handlerStatus_only s sr :
  let sr' := (doReconcile s sr).1.2 in
  oh_Namespace sr' = oh_Namespace sr /\
  oh_Name sr' = oh_Name sr /\
  oh_Generation sr' = oh_Generation sr /\
  oh_Spec sr' = oh_Spec sr /\
  status_Conditions (oh_Status sr') = status_Conditions (oh_Status sr).
Proof.
  intros sr'. unfold sr'. rewrite (doReconcile_frame s sr).
  by split_and!.
Qed.

(** ** The order of the records *)

Lemma appendMissing_cons (keys : list string) h hs :
  appendMissing keys (h :: hs)
    = appendMissing (if decide (h ∈ keys) then keys else keys ++ [h]) hs.
Proof. done. Qed.


Lemma appendMissing_elem (keys hs : list string) k :
  k ∈ appendMissing keys hs <-> k ∈ keys \/ k ∈ hs.
Proof.
  revert keys. induction hs as [|h hs IH]; intros keys.
  - rewrite elem_of_nil. unfold appendMissing. simpl. tauto.
  - rewrite appendMissing_cons, IH, elem_of_cons. case_decide as Hh.
    + split; [tauto|]. intros [?|[->|?]]; auto.
    + rewrite elem_of_app, list_elem_of_singleton. tauto.
Qed.

(** nothing is appended when every key has its record *)
Lemma appendMissing_present (keys hs : list string) :
  (forall k, k ∈ hs -> k ∈ keys) -> appendMissing keys hs = keys.
Proof.
  induction hs as [|h hs IH]; intros Hall; [done|].
  rewrite appendMissing_cons, decide_True by (apply Hall; by left).
  apply IH. intros k Hk. apply Hall. by right.
Qed.

(** what is appended are keys of [hs] *)
Lemma appendMissing_split (keys hs : list string) :
  exists added, appendMissing keys hs = keys ++ added /\ forall k, k ∈ added -> k ∈ hs.
Proof.
  revert keys. induction hs as [|h hs IH]; intros keys.
  - exists []. by rewrite app_nil_r.
  - rewrite appendMissing_cons. case_decide.
    + destruct (IH keys) as (added & -> & Hin). exists added. split; [done|].
      intros k Hk. right. auto.
    + destruct (IH (keys ++ [h])) as (added & -> & Hin). exists (h :: added).
      split; [by rewrite <- app_assoc|].
      intros k [->|Hk]%elem_of_cons; [by left|right; auto].
Qed.

Lemma filter_all {A} (P : A -> Prop) `{!forall x, Decision (P x)} (l : list A) :
  (forall x, x ∈ l -> P x) -> filter P l = l.
Proof.
  induction l as [|x l IH]; intros Hall; [done|].
  rewrite filter_cons, decide_True by (apply Hall; by left).
  f_equal. apply IH. intros y Hy. apply Hall. by right.
Qed.

(** the keys after the loop: the old ones in place, the fresh ones behind
    them in the order of the handlers *)
Lemma handlerLoop_keys st specs st' :
  KeepsKey ->
  handlerLoop st specs = inl st' ->
  hs_Key <$> statuses st' = appendMissing (hs_Key <$> statuses st) (BuildKey <$> specs).
Proof.
  intros Hk. revert st. induction specs as [|spec rest IH]; intros st;
    cbn [handlerLoop].
  - by intros [= <-].
  - destruct (handlerStep st spec) as [st1|stop] eqn:Hstep; [|done].
    intros Hloop. apply IH in Hloop. rewrite Hloop, fmap_cons, appendMissing_cons.
    apply handlerStep_inl in Hstep as (o & l1 & _ & _ & Hsr1 & _ & _ & Hup).
    rewrite Hsr1. cbn [set_HandlerStatus oh_Status status_HandlerStatus].
    by rewrite (updated_keys _ _ _ _ Hk Hup).
Qed.

(** X2. With handlers that leave the key of their record alone, the keys of
    the status list after a pass that completes the loop are: the keys of the
    list as fetched, in their order, without those no handler has; then, in
    the order of the handlers, the keys that had no record.  Records never
    change places. *)
Theorem X2_record_order_after_pass s sr s' sr' err :
  KeepsKey ->
  doReconcile s sr = (s', sr', err) ->
  completedLoop err ->
  keysOf sr' = filter (fun k => k ∈ handlerKeys sr) (appendMissing (keysOf sr) (handlerKeys sr)).
Proof.
  intros Hk Hdo Hc.
  destruct (doReconcile_completed _ _ _ _ _ Hdo Hc)
    as (s1 & gvk & w & obj & st1 & _ & _ & _ & Hloop & _ & -> & _).
  pose proof (handlerLoop_keys _ _ _ Hk Hloop) as Hkeys.
  apply handlerLoop_inl in Hloop as (outs & _ & _ & _ & _ & _ & Hex & _).
  simpl in *. rewrite prune_keys, Hkeys. apply list_filter_iff.
  intros k. rewrite Hex, lookup_empty. split; [intros [?|?]; done|auto].
Qed.

(** X3. A pass is stable on the records it leaves: after a pass that
    completed the loop, another completed pass over the same handlers keeps
    the same keys in the same order, adding and dropping none. *)
Theorem X3_second_pass_keeps_records s sr s' sr' err s2 s3 sr3 err3 :
  KeepsKey ->
  doReconcile s sr = (s', sr', err) ->
  completedLoop err ->
  doReconcile s2 sr' = (s3, sr3, err3) ->
  completedLoop err3 ->
  keysOf sr3 = keysOf sr'.
Proof.
  intros Hk Hdo Hc Hdo2 Hc2.
  assert (Hspec : oh_Spec sr' = oh_Spec sr).
  { pose proof (doReconcile_Spec s sr) as Hfr. by rewrite Hdo in Hfr. }
  assert (Hmem : forall k, k ∈ keysOf sr' <-> k ∈ handlerKeys sr).
  { intros k.
    destruct (doReconcile_completed _ _ _ _ _ Hdo Hc)
      as (s1 & gvk & w & obj & st1 & _ & _ & _ & Hloop & _ & Hsr' & _).
    pose proof (handlerLoop_keys _ _ _ Hk Hloop) as Hkeys.
    apply handlerLoop_inl in Hloop as (outs & _ & _ & _ & _ & _ & Hex & _).
    rewrite Hsr'. simpl in *.
    rewrite prune_keys, list_elem_of_filter, Hex, lookup_empty, Hkeys, appendMissing_elem.
    split; [intros [[?|?] _]; done|auto]. }
  destruct (doReconcile_completed _ _ _ _ _ Hdo2 Hc2)
    as (s1 & gvk & w & obj & st1 & _ & _ & _ & Hloop & _ & -> & _).
  pose proof (handlerLoop_keys _ _ _ Hk Hloop) as Hkeys.
  apply handlerLoop_inl in Hloop as (outs & _ & _ & _ & _ & _ & Hex & _).
  simpl in *. rewrite prune_keys, Hkeys, Hspec.
  rewrite appendMissing_present by (intros k; apply Hmem).
  apply filter_all. intros k Hin. apply Hex. right. rewrite Hspec. by apply Hmem.
Qed.


(** ** The result of a pass *)



(** X6. When the reporter of a handler cannot be built, doReconcile returns
    the builder's error on the spot: the instance is as the handlers before
    left it, the failed build is the last call made, and no later handler is
    resolved or run. *)
Theorem X6_unresolved_reporter_aborts s sr s1 gvk w obj pre spec post st1 w1 p :
  addWatchForKind s sr = (s1, None) ->
  ForObject_GroupVersionKind (spec_ForObject (oh_Spec sr)) = Ok gvk ->
  GetObject (world s1) gvk (targetName sr) = (w, Ok obj) ->
  spec_Handlers (oh_Spec sr) = pre ++ spec :: post ->
  handlerLoop {| l_state := called s1 w (EvGetObject gvk (targetName sr) None);
                 l_sr := sr; l_obj := obj;
                 l_existingStatuses := ∅; l_errs := [] |} pre = inl st1 ->
  (exists c, PullRequestComment spec = Some c /\
     BuildPullRequestCommentReporter (world (l_state st1)) (oh_Namespace (l_sr st1)) c
       = (w1, Err p)) \/
  (PullRequestComment spec = None /\
   exists a, PullRequestApprove spec = Some a /\
     BuildPullRequestApproveReporter (world (l_state st1)) (oh_Namespace (l_sr st1)) a
       = (w1, Err p)) ->
  doReconcile s sr
    = (called (l_state st1) w1 (EvBuild spec (Some p)), l_sr st1, Some (Plain p)).
Proof.
  intros Hwatch Hgvk Hget Hspecs Hpre Hbuild.
  rewrite (doReconcile_fetched _ _ _ _ _ _ Hwatch Hgvk Hget), Hspecs.
  rewrite handlerLoop_app, Hpre. cbn [handlerLoop]. unfold handlerStep.
  destruct Hbuild as [(c & -> & ->)|(-> & a & -> & ->)]; done.
Qed.

(** ** The calls of a pass *)

Lemma addWatchForKind_trace s sr :
  exists tr,
    trace (addWatchForKind s sr).1 = trace s ++ tr /\
    Forall (fun ev => isWatchEvent ev) tr.
Proof.
  unfold addWatchForKind.
  destruct (ForObject_GroupVersionKind _) as [gvk|p];
    [|exists []; by rewrite app_nil_r].
  destruct (Watch (world s) gvk) as [w [e|]] eqn:Hw;
    destruct (watchedKinds s !! gvk) as [[]|]; simpl;
    first [by exists []; rewrite app_nil_r | by eexists [_]; repeat constructor].
Qed.

Lemma Forall_watch_pass (tr : list Event) :
  Forall (fun ev => isWatchEvent ev) tr -> Forall (fun ev => isPassEvent ev) tr.
Proof. intros H. eapply Forall_impl; [exact H|]. by intros []. Qed.


Lemma Forall_pipeline_pass (tr : list Event) :
  Forall (fun ev => isPipelineEvent ev) tr -> Forall (fun ev => isPassEvent ev) tr.
Proof. intros H. eapply Forall_impl; [exact H|]. by intros []. Qed.

(** doReconcile calls nothing but Watch, the target fetch, the builders and
    the handlers *)
Lemma doReconcile_trace s sr :
  exists tr,
    trace (doReconcile s sr).1.1 = trace s ++ tr /\
    Forall (fun ev => isPassEvent ev) tr.
Proof.
  destruct (addWatchForKind_trace s sr) as (tr0 & Htr0 & Hall0).
  apply Forall_watch_pass in Hall0.
  unfold doReconcile.
  destruct (addWatchForKind s sr) as [s1 [e|]]; simpl in *; [by exists tr0|].
  destruct (ForObject_GroupVersionKind _) as [gvk|p]; [|by exists tr0].
  destruct (GetObject _ _ _) as [w [obj|p]]; simpl.
  - set (st := {| l_state := called s1 w (EvGetObject gvk (targetName sr) None) |}).
    destruct (handlerLoop_trace st (spec_Handlers (oh_Spec sr))) as (tr & Hall & Htr).
    exists (tr0 ++ EvGetObject gvk (targetName sr) None :: tr). split.
    + destruct (handlerLoop st _) as [st1|[[s3 sr3] e]]; simpl; rewrite Htr; simpl;
        rewrite Htr0, <- !app_assoc; done.
    + apply Forall_app. split; [done|]. constructor; [done|].
      by apply Forall_pipeline_pass.
  - exists (tr0 ++ [EvGetObject gvk (targetName sr) (Some p)]). split.
    + by rewrite Htr0, <- app_assoc.
    + apply Forall_app. split; [done|]. by repeat constructor.
Qed.

(** X7. Once the instance is fetched, Reconcile patches the status exactly
    once, as its last call and whatever doReconcile returned; the error it
    returns is the error of that patch and nothing else, and with an error
    the result is empty.  Reconcile never sets Requeue. *)
Theorem X7_one_patch_decides_the_result s req w sr0 :
  Get (world s) req = (w, Ok sr0) ->
  exists tr sent r,
    trace (Reconcile s req).1.1 = trace s ++ EvGet req None :: tr ++ [EvPatch sent r] /\
    Forall (fun ev => isPassEvent ev) tr /\
    oh_Spec sent = oh_Spec sr0 /\
    (Reconcile s req).2 = Plain <$> r /\
    (r <> None -> (Reconcile s req).1.2 = emptyResult) /\
    Requeue (Reconcile s req).1.2 = false.
Proof.
  intros Hget.
  destruct (doReconcile (called s w (EvGet req None)) sr0) as [[s1 sr1] derr] eqn:Hdo.
  destruct (Patch (world s1) (reported sr1 derr) sr0) as [w' r] eqn:Hpatch.
  rewrite (Reconcile_fetched _ _ _ _ _ _ _ Hget Hdo _ _ Hpatch).
  destruct (doReconcile_trace (called s w (EvGet req None)) sr0) as (tr & Htr & Hall).
  rewrite Hdo in Htr. simpl in Htr.
  exists tr, (reported sr1 derr), (result_err r). simpl. split_and!.
  - rewrite Htr, <- !app_assoc. done.
  - done.
  - pose proof (doReconcile_Spec (called s w (EvGet req None)) sr0) as Hs.
    by rewrite Hdo in Hs.
  - by destruct r.
  - by destruct r.
  - by destruct r.
Qed.

(** X8. When the target object cannot be fetched, no reporter is built and
    no handler runs; Reconcile goes straight to the patch, and the instance
    it sends has the handler records exactly as fetched and Ready=False with
    reason Error and the text of the fetch error. *)
Theorem X8_target_fetch_failure s req w sr0 s1 gvk w1 e :
  Get (world s) req = (w, Ok sr0) ->
  addWatchForKind (called s w (EvGet req None)) sr0 = (s1, None) ->
  ForObject_GroupVersionKind (spec_ForObject (oh_Spec sr0)) = Ok gvk ->
  GetObject (world s1) gvk (targetName sr0) = (w1, Err e) ->
  exists sent r,
    trace (Reconcile s req).1.1
      = trace s1 ++ [EvGetObject gvk (targetName sr0) (Some e); EvPatch sent r] /\
    status_HandlerStatus (oh_Status sent) = status_HandlerStatus (oh_Status sr0) /\
    FindStatusCondition (status_Conditions (oh_Status sent)) "Ready"
      = Some {| cond_Type := "Ready";
                cond_Status := ConditionFalse;
                cond_ObservedGeneration := oh_Generation sr0;
                cond_Reason := "Error";
                cond_Message := perr_msg e |}.
Proof.
  intros Hget Hwatch Hgvk Hobj.
  assert (Hdo : doReconcile (called s w (EvGet req None)) sr0
                = (called s1 w1 (EvGetObject gvk (targetName sr0) (Some e)), sr0,
                   Some (Plain e))).
  { unfold doReconcile. by rewrite Hwatch, Hgvk, Hobj. }
  destruct (Reconcile_sends _ _ _ _ _ _ _ Hget Hdo) as (r & Htr).
  exists (reported sr0 (Some (Plain e))), r. split_and!.
  - rewrite Htr. simpl. by rewrite <- app_assoc.
  - done.
  - apply (reported_Ready sr0 (Some (Plain e))).
Qed.

(** ** The registry over the life of the reconciler *)

Lemma subscriptions_app gvk (tr1 tr2 : list Event) :
  subscriptions gvk (tr1 ++ tr2) = (subscriptions gvk tr1 + subscriptions gvk tr2)%nat.
Proof. unfold subscriptions. by rewrite filter_app, length_app. Qed.

Lemma subscriptions_none gvk (tr : list Event) :
  Forall (fun ev => isSubscription gvk ev = false) tr -> subscriptions gvk tr = 0%nat.
Proof.
  induction 1 as [|ev tr Hev _ IH]; [done|].
  change (ev :: tr) with ([ev] ++ tr). rewrite subscriptions_app, IH.
  unfold subscriptions. rewrite filter_cons, filter_nil. by rewrite Hev.
Qed.

Lemma registryStep_refl s : registryStep s s.
Proof. exists []. rewrite app_nil_r. split; [done|]. left. done. Qed.

(** a call other than a successful Watch changes nothing of the account *)
Lemma registryStep_called s s' w ev :
  registryStep s s' ->
  (forall g, isSubscription g ev = false) ->
  registryStep s (called s' w ev).
Proof.
  intros (tr & Htr & Hcase) Hev. exists (tr ++ [ev]). split.
  { simpl. by rewrite Htr, <- app_assoc. }
  assert (Hsub : forall g, subscriptions g (tr ++ [ev]) = subscriptions g tr).
  { intros g. rewrite subscriptions_snoc, Hev. lia. }
  destruct Hcase as [[Hw Hz]|(gvk & Hk & Hw & Hone & Hz)].
  - left. split; [done|]. intros g. by rewrite Hsub.
  - right. exists gvk. split_and!; [done|done|by rewrite Hsub|].
    intros g Hne. rewrite Hsub. auto.
Qed.

Lemma registryStep_addWatchForKind s sr : registryStep s (addWatchForKind s sr).1.
Proof.
  unfold addWatchForKind.
  destruct (ForObject_GroupVersionKind _) as [gvk|p]; [|apply registryStep_refl].
  destruct (watchedKinds s !! gvk) as [[]|] eqn:Hk; [apply registryStep_refl|..];
    destruct (Watch (world s) gvk) as [w [e|]]; simpl.
  - apply registryStep_called; [apply registryStep_refl|done].
  - exists [EvWatch gvk None]. split; [done|]. right. exists gvk. split_and!.
    + congruence.
    + done.
    + unfold subscriptions. rewrite filter_cons, filter_nil. simpl.
      by rewrite bool_decide_eq_true_2.
    + intros g Hne. unfold subscriptions. rewrite filter_cons, filter_nil. simpl.
      by rewrite bool_decide_eq_false_2.
  - apply registryStep_called; [apply registryStep_refl|done].
  - exists [EvWatch gvk None]. split; [done|]. right. exists gvk. split_and!.
    + congruence.
    + done.
    + unfold subscriptions. rewrite filter_cons, filter_nil. simpl.
      by rewrite bool_decide_eq_true_2.
    + intros g Hne. unfold subscriptions. rewrite filter_cons, filter_nil. simpl.
      by rewrite bool_decide_eq_false_2.
Qed.

(** appending calls of the handler loop *)
Lemma registryStep_events s s1 s2 (tr : list Event) :
  registryStep s s1 ->
  trace s2 = trace s1 ++ tr ->
  watchedKinds s2 = watchedKinds s1 ->
  Forall (fun ev => isPipelineEvent ev) tr ->
  registryStep s s2.
Proof.
  intros (tr1 & Htr1 & Hcase) Htr Hw Hall. exists (tr1 ++ tr). split.
  { by rewrite Htr, Htr1, <- app_assoc. }
  assert (Hsub : forall g, subscriptions g (tr1 ++ tr) = subscriptions g tr1).
  { intros g. rewrite subscriptions_app, (subscriptions_none g tr); [lia|].
    eapply Forall_impl; [exact Hall|]. by intros []. }
  rewrite Hw. destruct Hcase as [[Hw1 Hz]|(gvk & Hk & Hw1 & Hone & Hz)].
  - left. split; [done|]. intros g. by rewrite Hsub.
  - right. exists gvk. split_and!; [done|done|by rewrite Hsub|].
    intros g Hne. rewrite Hsub. auto.
Qed.

Lemma registryStep_doReconcile s sr : registryStep s (doReconcile s sr).1.1.
Proof.
  pose proof (registryStep_addWatchForKind s sr) as Hstep.
  unfold doReconcile.
  destruct (addWatchForKind s sr) as [s1 [e|]]; simpl in *; [done|].
  destruct (ForObject_GroupVersionKind _) as [gvk|p]; [|done].
  destruct (GetObject _ _ _) as [w [obj|p]]; simpl;
    [|by apply registryStep_called].
  set (st := {| l_state := called s1 w (EvGetObject gvk (targetName sr) None) |}).
  assert (Hst : registryStep s (l_state st)) by by apply registryStep_called.
  destruct (handlerLoop_trace st (spec_Handlers (oh_Spec sr))) as (tr & Hall & Htr).
  destruct (handlerLoop st _) as [st1|[[s3 sr3] e]] eqn:Hloop; simpl.
  - apply handlerLoop_inl in Hloop as (outs & _ & _ & Hw & _).
    by eapply registryStep_events.
  - apply handlerLoop_inr in Hloop as (pre & spec & post & st1 & _ & Hpre & Hlast).
    apply handlerLoop_inl in Hpre as (outs & _ & _ & Hw & _).
    apply handlerStep_inr in Hlast as (_ & Hw3 & _).
    eapply registryStep_events; [exact Hst|exact Htr| |exact Hall]. by rewrite Hw3.
Qed.

Lemma registryStep_keeps s1 s2 :
  consistent s1 -> registryStep s1 s2 ->
  consistent s2 /\
  (forall g, watchedKinds s1 !! g = Some true -> watchedKinds s2 !! g = Some true) /\
  (onlyTrue (watchedKinds s1) -> onlyTrue (watchedKinds s2)).
Proof.
  intros Hc (tr & Htr & Hcase). split_and!.
  - intros g. rewrite Htr, subscriptions_app, Hc.
    destruct Hcase as [[-> Hz]|(gvk & Hk & -> & Hone & Hz)].
    + rewrite Hz. lia.
    + destruct (decide (g = gvk)) as [->|Hne].
      * rewrite lookup_insert_eq, Hone, decide_False, decide_True by done. done.
      * rewrite lookup_insert_ne, Hz by done. lia.
  - intros g Hg. destruct Hcase as [[-> _]|(gvk & _ & -> & _)]; [done|].
    destruct (decide (gvk = g)) as [->|Hne];
      [by rewrite lookup_insert_eq|by rewrite lookup_insert_ne].
  - intros Hall g b. destruct Hcase as [[-> _]|(gvk & _ & -> & _)]; [apply Hall|].
    destruct (decide (gvk = g)) as [->|Hne].
    + rewrite lookup_insert_eq. congruence.
    + rewrite lookup_insert_ne by done. apply Hall.
Qed.

Lemma registryStep_Reconcile s req : registryStep s (Reconcile s req).1.1.
Proof.
  unfold Reconcile.
  destruct (Get (world s) req) as [w [sr0|p]] eqn:Hget; simpl.
  - pose proof (registryStep_doReconcile (called s w (EvGet req None)) sr0) as Hdo.
    destruct (doReconcile _ sr0) as [[s1 sr1] derr]. simpl in Hdo.
    fold (reported sr1 derr).
    destruct (Patch (world s1) (reported sr1 derr) sr0) as [w' r].
    assert (Hs1 : registryStep s s1).
    { destruct Hdo as (tr & Htr & Hcase). exists (EvGet req None :: tr). split.
      { rewrite Htr. simpl. by rewrite <- app_assoc. }
      assert (Hsub : forall g, subscriptions g (EvGet req None :: tr) = subscriptions g tr).
      { intros g. change (EvGet req None :: tr) with ([EvGet req None] ++ tr).
        by rewrite subscriptions_app. }
      destruct Hcase as [[Hw Hz]|(gvk & Hk & Hw & Hone & Hz)].
      - left. split; [done|]. intros g. by rewrite Hsub.
      - right. exists gvk. split_and!; [done|done|by rewrite Hsub|].
        intros g Hne. rewrite Hsub. auto. }
    destruct r; simpl; by apply registryStep_called.
  - apply registryStep_called; [apply registryStep_refl|done].
Qed.

Lemma reconcileAll_invariants s reqs :
  consistent s ->
  consistent (reconcileAll s reqs) /\
  (forall g, watchedKinds s !! g = Some true ->
             watchedKinds (reconcileAll s reqs) !! g = Some true) /\
  (onlyTrue (watchedKinds s) -> onlyTrue (watchedKinds (reconcileAll s reqs))).
Proof.
  revert s. induction reqs as [|req rest IH]; intros s Hc; [done|].
  cbn [reconcileAll].
  destruct (registryStep_keeps s _ Hc (registryStep_Reconcile s req))
    as (Hc1 & Hmono1 & Htrue1).
  destruct (IH _ Hc1) as (Hc2 & Hmono2 & Htrue2). split_and!; auto.
Qed.

Lemma consistent_start w : consistent (SetupWithManager w).
Proof. intros g. simpl. by rewrite lookup_empty. Qed.

(** X9. Over any sequence of reconcile requests served from the state
    SetupWithManager leaves, the registry agrees with the subscriptions
    made: a kind is marked exactly when one subscription was created for it,
    and no subscription exists for an unmarked kind; so no kind is ever
    subscribed to twice, whatever fails in between. *)
Theorem X9_registry_matches_subscriptions w reqs gvk :
  subscriptions gvk (trace (reconcileAll (SetupWithManager w) reqs))
    = (if decide (watchedKinds (reconcileAll (SetupWithManager w) reqs) !! gvk = Some true)
       then 1 else 0)%nat.
Proof.
  destruct (reconcileAll_invariants (SetupWithManager w) reqs (consistent_start w))
    as (Hc & _). apply Hc.
Qed.

(** X10. The registry only grows: a kind that is marked stays marked
    through every later reconcile request, and no entry of the registry
    ever holds false. *)
Theorem X10_registry_only_grows w reqs more gvk :
  (watchedKinds (reconcileAll (SetupWithManager w) reqs) !! gvk = Some true ->
   watchedKinds (reconcileAll (SetupWithManager w) (reqs ++ more)) !! gvk = Some true) /\
  onlyTrue (watchedKinds (reconcileAll (SetupWithManager w) reqs)).
Proof.
  assert (Happ : forall s, reconcileAll s (reqs ++ more)
                           = reconcileAll (reconcileAll s reqs) more).
  { induction reqs as [|req rest IH]; intros s; [done|]. simpl. apply IH. }
  destruct (reconcileAll_invariants (SetupWithManager w) reqs (consistent_start w))
    as (Hc & _ & Htrue).
  split.
  - rewrite Happ.
    destruct (reconcileAll_invariants _ more Hc) as (_ & Hmono & _). apply Hmono.
  - apply Htrue. intros g b. simpl. by rewrite lookup_empty.
Qed.

(** X11. When addWatchForKind returns nil the kind of the instance is
    marked and the entries of all other kinds are as before; calling it
    again right away returns nil without a call and without a change. *)
Theorem X11_nil_means_watched s sr s' :
  addWatchForKind s sr = (s', None) ->
  exists gvk,
    ForObject_GroupVersionKind (spec_ForObject (oh_Spec sr)) = Ok gvk /\
    watchedKinds s' !! gvk = Some true /\
    (forall g, g <> gvk -> watchedKinds s' !! g = watchedKinds s !! g) /\
    addWatchForKind s' sr = (s', None).
Proof.
  intros Hadd.
  destruct (addWatchForKind_None _ _ _ Hadd) as (gvk & Hgvk & [[Hk ->]|(Hk & w & Hw & ->)]).
  - exists gvk. split_and!; try done.
  - exists gvk. simpl. split_and!; [done|apply lookup_insert_eq| |].
    + intros g Hne. by rewrite lookup_insert_ne.
    + unfold addWatchForKind. rewrite Hgvk. simpl. by rewrite lookup_insert_eq.
Qed.

(** ** The workers and the mutex *)

Lemma run_app (a b : list Move) sys : run (a ++ b) sys = run b (run a sys).
Proof. revert sys. induction a as [|m a IH]; intros sys; [done|]. apply IH. Qed.

(** X12. However the workers are interleaved, at most one of them is
    between Lock and Unlock; the mutex is held exactly when one is, so every
    return has released it; and whenever it is free the registry agrees with
    the subscriptions made: one for each marked kind, none for the others. *)
Theorem X12_mutual_exclusion w (srs : list ObjectHandler) schedule :
  let sys := run schedule (startWorkers w srs) in
  (forall i j pci pcj,
     sys_workers sys !! i = Some pci -> sys_workers sys !! j = Some pcj ->
     holdsMutex pci = true -> holdsMutex pcj = true -> i = j) /\
  (sys_mutex sys = true <->
   exists i pc, sys_workers sys !! i = Some pc /\ holdsMutex pc = true) /\
  (sys_mutex sys = false -> consistent (sys_state sys)).
Proof.
  intros sys.
  assert (Hinv : mutexInv sys) by apply mutexInv_run, mutexInv_start.
  destruct Hinv as [(Hm & Hnone & Hcons)|(h & pch & Hm & Hh & Hothers & Hpc)].
  - split_and!.
    + intros i j pci pcj Hi _ Hpi. apply Hnone in Hi. congruence.
    + rewrite Hm. split; [done|]. intros (i & pc & Hi & Hp). apply Hnone in Hi. congruence.
    + done.
  - assert (Hhold : holdsMutex pch = true) by by destruct pch.
    split_and!.
    + intros i j pci pcj Hi Hj Hpi Hpj.
      destruct (decide (i = h)) as [->|Hni];
        [|apply Hothers in Hi; [congruence|done]].
      destruct (decide (j = h)) as [->|Hnj];
        [done|apply Hothers in Hj; [congruence|done]].
    + split; [|done]. intros _. by exists h, pch.
    + congruence.
Qed.

(** with the invariant, a worker that has not returned means some worker
    can move: the one past Lock if there is one, any other if not *)
Lemma mutexInv_enabled sys i pc :
  mutexInv sys ->
  sys_workers sys !! i = Some pc ->
  ~ hasReturned pc ->
  exists j sys', workerStep j sys = Some sys'.
Proof.
  intros Hinv Hi Hnot.
  assert (Hholder : forall h pch, sys_workers sys !! h = Some pch -> holdsMutex pch = true ->
                                  exists sys', workerStep h sys = Some sys').
  { intros h pch Hh Hp. unfold workerStep. rewrite Hh.
    destruct pch as [| |g|g|g|]; try done.
    - destruct (watchedKinds (sys_state sys) !! g) as [[]|]; eauto.
    - destruct (Watch (world (sys_state sys)) g) as [w' [e|]]; eauto.
    - eauto. }
  destruct Hinv as [(Hm & Hnone & _)|(h & pch & _ & Hh & _ & Hpc)].
  - exists i. unfold workerStep. rewrite Hi. pose proof (Hnone _ _ Hi) as Hp.
    destruct pc as [sr|g| | | |]; try done.
    + destruct (ForObject_GroupVersionKind _); eauto.
    + rewrite Hm. eauto.
  - exists h. eapply Hholder; [done|]. by destruct pch.
Qed.

(** X13. The workers never deadlock: in every state they can reach, as long
    as one of them has not returned, one of them can take a step. *)
Theorem X13_no_deadlock w (srs : list ObjectHandler) schedule i pc :
  let sys := run schedule (startWorkers w srs) in
  sys_workers sys !! i = Some pc ->
  ~ hasReturned pc ->
  exists j sys', workerStep j sys = Some sys'.
Proof.
  intros sys Hi Hnot. eapply mutexInv_enabled; [|exact Hi|exact Hnot].
  apply mutexInv_run, mutexInv_start.
Qed.

Lemma rank_insert (workers : list Pc) i pc pc' :
  workers !! i = Some pc ->
  (sum_list (rank <$> <[i := pc']> workers) + rank pc
   = sum_list (rank <$> workers) + rank pc')%nat.
Proof.
  revert i. induction workers as [|a workers IH]; intros [|i] Hi; simplify_eq/=.
  - lia.
  - specialize (IH _ Hi). lia.
Qed.

(** every step of a worker brings it one line closer to its return *)
Lemma workerStep_rank i sys sys' :
  workerStep i sys = Some sys' -> (totalRank sys' < totalRank sys)%nat.
Proof.
  unfold workerStep, totalRank.
  destruct (sys_workers sys !! i) as [pc|] eqn:Hi; [|done].
  assert (Hmove : forall s m pc', (rank pc' < rank pc)%nat ->
            (sum_list (rank <$> sys_workers (moveWorker sys i s m pc'))
             < sum_list (rank <$> sys_workers sys))%nat).
  { intros s m pc' Hlt. simpl. pose proof (rank_insert _ _ _ pc' Hi). lia. }
  destruct pc as [sr|g|g|g|g|err].
  - destruct (ForObject_GroupVersionKind _); intros [= <-]; apply Hmove; simpl; lia.
  - destruct (sys_mutex sys); [done|]. intros [= <-]. apply Hmove. simpl. lia.
  - destruct (watchedKinds (sys_state sys) !! g) as [[]|]; intros [= <-];
      apply Hmove; simpl; lia.
  - destruct (Watch (world (sys_state sys)) g) as [w' [e|]]; intros [= <-];
      apply Hmove; simpl; lia.
  - intros [= <-]. apply Hmove. simpl. lia.
  - done.
Qed.

Lemma rank_zero_returned (workers : list Pc) :
  sum_list (rank <$> workers) = 0%nat -> Forall hasReturned workers.
Proof.
  induction workers as [|pc workers IH]; [done|].
  rewrite fmap_cons. cbn [sum_list_with]. unfold id at 1. intros Hsum.
  constructor; [|apply IH; lia].
  destruct pc; cbn [rank] in Hsum; first [exact I | lia].
Qed.

Lemma rank_positive (workers : list Pc) :
  (0 < sum_list (rank <$> workers))%nat ->
  exists i pc, workers !! i = Some pc /\ ~ hasReturned pc.
Proof.
  induction workers as [|pc workers IH]; [simpl; lia|].
  rewrite fmap_cons. cbn [sum_list_with]. unfold id at 1. intros Hsum.
  destruct (decide (rank pc = 0%nat)) as [Hz|Hnz].
  - destruct IH as (i & pc' & Hi & Hn); [lia|]. by exists (S i), pc'.
  - exists 0%nat, pc. split; [done|].
    destruct pc; simpl in *; first [by intros [] | congruence].
Qed.

(** X14. Every call of addWatchForKind comes to its return: from any state
    the workers can reach, some further steps, no more than five for each
    worker, bring all of them to their return, and then the mutex is free. *)
Theorem X14_all_workers_can_return w (srs : list ObjectHandler) schedule :
  exists more,
    (length more <= 5 * length srs)%nat /\
    Forall hasReturned (sys_workers (run (schedule ++ more) (startWorkers w srs))) /\
    sys_mutex (run (schedule ++ more) (startWorkers w srs)) = false.
Proof.
  assert (Hgo : forall n sys, mutexInv sys -> totalRank sys = n ->
            exists more, (length more <= n)%nat /\
                         Forall hasReturned (sys_workers (run more sys)) /\
                         sys_mutex (run more sys) = false).
  { induction n as [n IH] using lt_wf_ind. intros sys Hinv Hn.
    destruct (decide (n = 0%nat)) as [->|Hpos].
    - exists []. split; [done|]. pose proof (rank_zero_returned _ Hn) as Hall.
      split; [done|]. simpl.
      destruct Hinv as [(Hm & _)|(h & pch & _ & Hh & _ & Hpc)]; [done|].
      eapply Forall_lookup_1 in Hall; [|exact Hh]. by destruct pch.
    - destruct (rank_positive (sys_workers sys)) as (i & pc & Hi & Hnot);
        [unfold totalRank in Hn; lia|].
      assert (Hstep : exists j sys', workerStep j sys = Some sys')
        by by eapply mutexInv_enabled.
      destruct Hstep as (j & sys' & Hstep).
      pose proof (workerStep_rank _ _ _ Hstep) as Hlt.
      destruct (IH (totalRank sys') ltac:(lia) sys') as (more & Hlen & Hall & Hm);
        [by eapply mutexInv_workerStep|done|].
      exists (Work j :: more). split; [simpl; lia|].
      by rewrite (run_Work _ _ _ _ Hstep). }
  set (sys := run schedule (startWorkers w srs)).
  assert (Hinv : mutexInv sys) by apply mutexInv_run, mutexInv_start.
  assert (Hbound : forall sched sys0, (totalRank (run sched sys0) <= totalRank sys0)%nat).
  { induction sched as [|m sched IHs]; intros sys0; [done|]. simpl.
    etrans; [apply IHs|]. destruct m as [j|w' ev]; simpl.
    - destruct (workerStep j sys0) as [sys1|] eqn:Hs; simpl; [|done].
      apply workerStep_rank in Hs. lia.
    - by destruct (isWatchEvent ev). }
  assert (Hstart : totalRank (startWorkers w srs) = (5 * length srs)%nat).
  { unfold totalRank, startWorkers. cbn [sys_workers]. clear.
    induction srs as [|sr srs IH]; [done|].
    rewrite !fmap_cons. cbn [sum_list_with rank length]. unfold id at 1.
    rewrite IH. lia. }
  destruct (Hgo (totalRank sys) sys Hinv eq_refl) as (more & Hlen & Hall & Hm).
  exists more. rewrite run_app. split_and!; [|done|done].
  etrans; [exact Hlen|]. rewrite <- Hstart. apply Hbound.
Qed.

(** X15. Run without interruption, the lines of addWatchForKind under the
    mutex do what the function does taken as one step: a worker that starts
    with the mutex free is at its return after five steps of its own, with
    the reconciler in the state addWatchForKind gives, the result it gives,
    the mutex free again and every other worker where it was. *)
Theorem X15_alone_a_worker_runs_addWatchForKind sys i sr :
  sys_mutex sys = false ->
  sys_workers sys !! i = Some (AtEntry sr) ->
  let sys' := run [Work i; Work i; Work i; Work i; Work i] sys in
  sys_state sys' = (addWatchForKind (sys_state sys) sr).1 /\
  sys_workers sys' !! i = Some (Returned (addWatchForKind (sys_state sys) sr).2) /\
  sys_mutex sys' = false /\
  forall j, j <> i -> sys_workers sys' !! j = sys_workers sys !! j.
Proof.
  intros Hm Hi sys'. unfold sys'. rewrite (worker_alone _ _ _ Hm Hi). simpl.
  split_and!; [done| |done|].
  - apply list_lookup_insert_eq. by eapply lookup_lt_Some.
  - intros j Hne. by rewrite list_lookup_insert_ne.
Qed.

(** ** No handler without its reporter *)






(** ** The conditions Reconcile sends *)






(** ** The text of the pass error *)

Lemma append_assoc (a b c : string) : (a +:+ b) +:+ c = a +:+ (b +:+ c).
Proof.
  induction a as [|x a IH]; [done|].
  change (String x ((a +:+ b) +:+ c) = String x (a +:+ (b +:+ c))). by f_equal.
Qed.

Lemma append_empty (a : string) : a +:+ "" = a.
Proof.
  induction a as [|x a IH]; [done|].
  change (String x (a +:+ "") = String x a). by f_equal.
Qed.

Lemma occursIn_app_l (sub text front : string) :
  occursIn sub text -> occursIn sub (front +:+ text).
Proof.
  intros (before & after & ->). exists (front +:+ before), after.
  by rewrite append_assoc.
Qed.

Lemma occursIn_app_r (sub text back : string) :
  occursIn sub text -> occursIn sub (text +:+ back).
Proof.
  intros (before & after & ->). exists before, (after +:+ back).
  by rewrite !append_assoc.
Qed.

Lemma occursIn_join (sep : string) (l : list string) x :
  x ∈ l -> occursIn x (join sep l).
Proof.
  induction l as [|y l IH]; [by intros ?%elem_of_nil|].
  intros [->|Hin]%elem_of_cons.
  - destruct l as [|z l]; simpl.
    + exists "", "". by rewrite append_empty.
    + exists "", (sep +:+ join sep (z :: l)). done.
  - specialize (IH Hin). destruct l as [|z l]; [by apply elem_of_nil in Hin|].
    change (join sep (y :: z :: l)) with (y +:+ sep +:+ join sep (z :: l)).
    by do 2 apply occursIn_app_l.
Qed.

(** X18. The text of the multierror a pass returns, which Reconcile writes
    as the message of the Ready condition, carries the message of every
    handler failure it aggregates. *)
Theorem X18_message_carries_every_failure sr (es : list PlainError) e :
  e ∈ es ->
  occursIn (perr_msg e) (cond_Message (readyCondition sr (Some (Multi es)))).
Proof.
  intros Hin. simpl. unfold ListFormatFunc.
  assert (Hgen : occursIn (perr_msg e)
            (pretty (length es) +:+ " errors occurred:" +:+ LF +:+ TAB
               +:+ join (LF +:+ TAB) (map (fun e => "* " +:+ perr_msg e) es)
               +:+ LF +:+ LF)).
  { do 4 apply occursIn_app_l. apply occursIn_app_r.
    assert (Hpt : occursIn (perr_msg e) ("* " +:+ perr_msg e)).
    { exists "* ", "". by rewrite append_empty. }
    destruct Hpt as (before & after & Heq).
    destruct (occursIn_join (LF +:+ TAB) (map (fun e => "* " +:+ perr_msg e) es)
                ("* " +:+ perr_msg e)) as (b2 & a2 & Hj).
    { apply list_elem_of_In, in_map_iff. exists e. split; [done|].
      by apply list_elem_of_In. }
    rewrite Hj, Heq. exists (b2 +:+ before), (after +:+ a2).
    by rewrite !append_assoc. }
  destruct es as [|e1 [|e2 es]]; [by apply elem_of_nil in Hin| |exact Hgen].
  apply list_elem_of_singleton in Hin as ->.
  do 4 apply occursIn_app_l. by exists "", (LF +:+ LF).
Qed.

(** ** A reference that names no kind *)

(** X19. When the reference of the instance does not resolve to a kind,
    the pass makes no call at all between the fetch of the instance and the
    patch: no subscription, no target fetch, no handler; the registry is
    untouched, and the instance sent has Ready=False with reason Error and
    the text of the resolution error. *)
Theorem X19_unresolved_kind s req w sr0 e :
  Get (world s) req = (w, Ok sr0) ->
  ForObject_GroupVersionKind (spec_ForObject (oh_Spec sr0)) = Err e ->
  exists r,
    trace (Reconcile s req).1.1
      = trace s ++ [EvGet req None; EvPatch (reported sr0 (Some (Plain e))) r] /\
    watchedKinds (Reconcile s req).1.1 = watchedKinds s /\
    status_HandlerStatus (oh_Status (reported sr0 (Some (Plain e))))
      = status_HandlerStatus (oh_Status sr0) /\
    FindStatusCondition (status_Conditions (oh_Status (reported sr0 (Some (Plain e))))) "Ready"
      = Some {| cond_Type := "Ready";
                cond_Status := ConditionFalse;
                cond_ObservedGeneration := oh_Generation sr0;
                cond_Reason := "Error";
                cond_Message := perr_msg e |}.
Proof.
  intros Hget Hgvk.
  assert (Hdo : doReconcile (called s w (EvGet req None)) sr0
                = (called s w (EvGet req None), sr0, Some (Plain e))).
  { unfold doReconcile, addWatchForKind. by rewrite Hgvk. }
  destruct (Patch (world (called s w (EvGet req None))) (reported sr0 (Some (Plain e))) sr0)
    as [w' r] eqn:Hpatch.
  rewrite (Reconcile_fetched _ _ _ _ _ _ _ Hget Hdo _ _ Hpatch).
  exists (result_err r). simpl. split_and!.
  - by rewrite <- app_assoc.
  - done.
  - done.
  - apply (reported_Ready sr0 (Some (Plain e))).
Qed.

(** ** Edges of the handler loop *)

Lemma prune_empty (l : list HandlerStatus) : prune ∅ l = [].
Proof.
  unfold prune. induction l as [|x l IH]; [done|].
  rewrite filter_cons, decide_False; [done|]. by rewrite lookup_empty.
Qed.

(** X20. For an instance with no handler at all, a pass that gets to the
    loop calls nothing after the target fetch, removes every handler record
    and returns nil. *)
Theorem X20_no_handlers_prunes_everything s sr s1 gvk w obj :
  spec_Handlers (oh_Spec sr) = [] ->
  addWatchForKind s sr = (s1, None) ->
  ForObject_GroupVersionKind (spec_ForObject (oh_Spec sr)) = Ok gvk ->
  GetObject (world s1) gvk (targetName sr) = (w, Ok obj) ->
  doReconcile s sr
    = (called s1 w (EvGetObject gvk (targetName sr) None), set_HandlerStatus sr [], None).
Proof.
  intros Hnone Hwatch Hgvk Hget.
  rewrite (doReconcile_fetched _ _ _ _ _ _ Hwatch Hgvk Hget), Hnone. simpl.
  by rewrite prune_empty.
Qed.

(** X21. When several handlers have the same key they share one record,
    and the last of them to run decides what it says: with handlers that
    leave the key alone, after a pass that completes the loop the first
    record of the key of a handler that no later handler shares holds the
    outcome of that handler's execution. *)
Theorem X21_last_handler_of_a_key_wins s sr s' sr' err :
  KeepsKey ->
  doReconcile s sr = (s', sr', err) ->
  completedLoop err ->
  exists outs,
    length outs = length (spec_Handlers (oh_Spec sr)) /\
    handled (trace s') = handled (trace s) ++ zip (handlerKeys sr) outs /\
    forall i spec o,
      spec_Handlers (oh_Spec sr) !! i = Some spec ->
      outs !! i = Some o ->
      BuildKey spec ∉ (BuildKey <$> drop (S i) (spec_Handlers (oh_Spec sr))) ->
      exists x,
        findStatus (BuildKey spec) (status_HandlerStatus (oh_Status sr')) = Some x /\
        hs_Error x = errorText o.
Proof.
  intros Hk Hdo Hc.
  destruct (doReconcile_completed _ _ _ _ _ Hdo Hc)
    as (s0 & gvk & w0 & obj & st1 & Hwatch & _ & _ & Hloop & -> & Hsr' & _).
  apply handlerLoop_inl in Hloop as (outs & Hlen & Htr & _ & _ & _ & Hex & Hkeep).
  destruct (Hkeep Hk) as (_ & _ & _ & Hfind). simpl in *.
  exists outs. split_and!; [done| |].
  - rewrite Htr, !handled_app, handled_pipelineEvents by done. simpl.
    rewrite app_nil_r. f_equal.
    pose proof (addWatchForKind_handled s sr) as Hh. by rewrite Hwatch in Hh.
  - intros i spec o Hs Ho Hlast.
    destruct (Hfind i spec o Hs Ho Hlast) as (x & Hx & Hxe).
    exists x. split; [|done]. rewrite Hsr'. simpl.
    rewrite findStatus_prune, decide_True; [done|].
    apply Hex. right. apply list_elem_of_fmap. exists spec. split; [done|].
    by eapply list_elem_of_lookup_2.
Qed.

Lemma appendMissing_NoDup (keys hs : list string) :
  NoDup keys -> NoDup (appendMissing keys hs).
Proof.
  revert keys. induction hs as [|h hs IH]; intros keys Hnd; [done|].
  rewrite appendMissing_cons. apply IH. case_decide as Hin; [done|].
  apply NoDup_app. split_and!; [done| |apply NoDup_singleton].
  intros k Hk ->%list_elem_of_singleton. done.
Qed.

Lemma appendMissing_fresh (keys hs : list string) :
  NoDup hs -> (forall k, k ∈ hs -> k ∉ keys) -> appendMissing keys hs = keys ++ hs.
Proof.
  revert keys. induction hs as [|h hs IH]; intros keys Hnd Hfresh.
  - by rewrite app_nil_r.
  - apply NoDup_cons in Hnd as [Hh Hnd].
    rewrite appendMissing_cons, decide_False by (apply Hfresh; by left).
    rewrite IH, <- app_assoc; [done|done|].
    intros k Hk [Hin|Hin]%elem_of_app.
    + eapply Hfresh; [by right|done].
    + apply list_elem_of_singleton in Hin as ->. done.
Qed.

(** X22. An instance with no handler record yet gets, from a pass that
    completes the loop, one record for each different key of its handlers
    and no two of the same key, in the order in which the keys first come
    in the handler list; with handlers of pairwise different keys the keys of
    the records are the keys of the handlers, in order. *)
Theorem X22_first_pass_builds_the_records s sr s' sr' err :
  KeepsKey ->
  status_HandlerStatus (oh_Status sr) = [] ->
  doReconcile s sr = (s', sr', err) ->
  completedLoop err ->
  keysOf sr' = appendMissing [] (handlerKeys sr) /\
  NoDup (keysOf sr') /\
  (NoDup (handlerKeys sr) -> keysOf sr' = handlerKeys sr).
Proof.
  intros Hk Hempty Hdo Hc.
  destruct (doReconcile_completed _ _ _ _ _ Hdo Hc)
    as (s1 & gvk & w & obj & st1 & _ & _ & _ & Hloop & _ & -> & _).
  pose proof (handlerLoop_keys _ _ _ Hk Hloop) as Hkeys.
  apply handlerLoop_inl in Hloop as (outs & _ & _ & _ & _ & _ & Hex & _).
  simpl in *. rewrite Hempty in Hkeys. simpl in Hkeys.
  assert (Heq : hs_Key <$> prune (l_existingStatuses st1) (statuses st1)
                = appendMissing [] (handlerKeys sr)).
  { rewrite prune_keys, Hkeys. apply filter_all. intros k Hin. apply Hex. right.
    apply appendMissing_elem in Hin as [Hin|Hin]; [by apply elem_of_nil in Hin|done]. }
  rewrite Heq. split_and!; [done|apply appendMissing_NoDup, NoDup_nil_2|].
  intros Hnd. rewrite appendMissing_fresh; [done|done|].
  intros k _ Hin. by apply elem_of_nil in Hin.
Qed.

End Coverage.

(** * The further properties at work on the small cluster *)

Lemma X2_witness :
  let C := Toy.cluster (Toy.rejecting "approve:b" Toy.three) in
  let out := @doReconcile Toy.types C Toy.start Toy.three in
  completedLoop out.2 /\
  hs_Key <$> status_HandlerStatus (oh_Status Toy.three)
    = ["approve:b"; "comment:removed"] /\
  hs_Key <$> status_HandlerStatus (oh_Status out.1.2)
    = ["approve:b"; "comment:a"; "comment:c"].
Proof.
  intros C out.
  assert (Hc : completedLoop out.2) by (vm_compute; exact I).
  split; [exact Hc|]. split; [reflexivity|].
  rewrite (@X2_record_order_after_pass Toy.types C Toy.start Toy.three
             out.1.1 out.1.2 out.2 (Toy_KeepsKey _) (triple_eta out) Hc).
  vm_compute. reflexivity.
Defined.

Lemma X3_witness :
  let C := Toy.cluster (Toy.calm Toy.three) in
  let first := @doReconcile Toy.types C Toy.start Toy.three in
  let second := @doReconcile Toy.types C first.1.1 first.1.2 in
  completedLoop first.2 /\
  completedLoop second.2 /\
  hs_Key <$> status_HandlerStatus (oh_Status second.1.2)
    = hs_Key <$> status_HandlerStatus (oh_Status first.1.2).
Proof.
  intros C first second.
  assert (Hc1 : completedLoop first.2) by (vm_compute; exact I).
  assert (Hc2 : completedLoop second.2) by (vm_compute; exact I).
  split; [exact Hc1|]. split; [exact Hc2|].
  exact (@X3_second_pass_keeps_records Toy.types C Toy.start Toy.three
           first.1.1 first.1.2 first.2 first.1.1 second.1.1 second.1.2 second.2
           (Toy_KeepsKey _) (triple_eta first) Hc1 (triple_eta second) Hc2).
Defined.



Lemma X6_witness :
  let C := Toy.cluster (Toy.unbuildable "b" Toy.three) in
  let out := @doReconcile Toy.types C Toy.start Toy.three in
  spec_Handlers (oh_Spec Toy.three)
    = [Toy.comment "a"] ++ Toy.approve "b" :: [Toy.comment "c"] /\
  out.2 = Some (Plain Toy.secretMissing) /\
  handled (trace out.1.1) = [("comment:a", None)] /\
  last (trace out.1.1) = Some (EvBuild (Toy.approve "b") (Some Toy.secretMissing)).
Proof.
  intros C out. split; [reflexivity|].
  set (s1 := (@addWatchForKind Toy.types C Toy.start Toy.three).1).
  set (st0 := {| l_state := @called Toy.types s1 2%nat
                              (EvGetObject Toy.deployment (@targetName Toy.types Toy.three) None);
                 l_sr := Toy.three; l_obj := "app" : @Object Toy.types;
                 l_existingStatuses := ∅; l_errs := [] |}).
  set (st1 := match @handlerLoop Toy.types C st0 [Toy.comment "a"] with
              | inl st => st
              | inr _ => st0
              end).
  pose proof (@X6_unresolved_reporter_aborts Toy.types C Toy.start Toy.three s1
                Toy.deployment 2%nat ("app" : @Object Toy.types)
                [Toy.comment "a"] (Toy.approve "b") [Toy.comment "c"] st1
                5%nat Toy.secretMissing eq_refl eq_refl eq_refl eq_refl eq_refl
                (or_intror (conj eq_refl
                   (ex_intro _ ("b" : @PullRequestApproveSpec Toy.types)
                      (conj eq_refl eq_refl))))) as Habort.
  unfold out. rewrite Habort. vm_compute. by split_and!.
Defined.

Lemma X7_witness :
  let C := Toy.cluster (Toy.rejecting "approve:b" Toy.three) in
  let out := @Reconcile Toy.types C Toy.start Toy.request in
  exists tr sent r,
    trace out.1.1 = trace Toy.start ++ EvGet Toy.request None :: tr ++ [EvPatch sent r] /\
    Forall (fun ev => isPassEvent ev) tr /\
    oh_Spec sent = oh_Spec Toy.three /\
    out.2 = Plain <$> r /\
    (r <> None -> out.1.2 = emptyResult) /\
    Requeue out.1.2 = false.
Proof.
  intros C out.
  exact (@X7_one_patch_decides_the_result Toy.types C Toy.start Toy.request
           1%nat Toy.three eq_refl).
Defined.

Lemma X8_witness :
  let C := Toy.cluster (Toy.targetAbsent Toy.three) in
  let s0 := @called Toy.types Toy.start 1%nat (EvGet Toy.request None) in
  let s1 := (@addWatchForKind Toy.types C s0 Toy.three).1 in
  exists sent r,
    trace (@Reconcile Toy.types C Toy.start Toy.request).1.1
      = trace s1 ++ [EvGetObject Toy.deployment (@targetName Toy.types Toy.three)
                       (Some Toy.targetNotFound);
                     EvPatch sent r] /\
    status_HandlerStatus (oh_Status sent) = status_HandlerStatus (oh_Status Toy.three) /\
    FindStatusCondition (status_Conditions (oh_Status sent)) "Ready"
      = Some {| cond_Type := "Ready";
                cond_Status := ConditionFalse;
                cond_ObservedGeneration := oh_Generation Toy.three;
                cond_Reason := "Error";
                cond_Message := perr_msg Toy.targetNotFound |}.
Proof.
  intros C s0 s1.
  exact (@X8_target_fetch_failure Toy.types C Toy.start Toy.request 1%nat Toy.three
           s1 Toy.deployment 3%nat Toy.targetNotFound eq_refl eq_refl eq_refl eq_refl).
Defined.

Lemma X11_witness :
  let C := Toy.cluster (Toy.calm Toy.three) in
  let s' := (@addWatchForKind Toy.types C Toy.start Toy.three).1 in
  exists gvk,
    @ForObject_GroupVersionKind Toy.types C (spec_ForObject (oh_Spec Toy.three)) = Ok gvk /\
    watchedKinds s' !! gvk = Some true /\
    (forall g, g <> gvk -> watchedKinds s' !! g = watchedKinds Toy.start !! g) /\
    @addWatchForKind Toy.types C s' Toy.three = (s', None).
Proof.
  intros C s'.
  exact (@X11_nil_means_watched Toy.types C Toy.start Toy.three s' eq_refl).
Defined.

Lemma X13_witness :
  let C := Toy.cluster (Toy.calm Toy.three) in
  let sys := @run Toy.types C [Work 0; Work 0]
               (@startWorkers Toy.types 0%nat [Toy.three; Toy.remote]) in
  sys_workers sys = [AtCheck Toy.deployment; AtEntry Toy.remote] /\
  exists j sys', @workerStep Toy.types C j sys = Some sys'.
Proof.
  intros C sys. split; [reflexivity|].
  exact (@X13_no_deadlock Toy.types C 0%nat [Toy.three; Toy.remote] [Work 0; Work 0]
           1%nat (AtEntry Toy.remote) eq_refl (fun H => H)).
Defined.

Lemma X15_witness :
  let C := Toy.cluster (Toy.calm Toy.three) in
  let sys := @startWorkers Toy.types 0%nat [Toy.three; Toy.remote] in
  let sys' := @run Toy.types C [Work 0; Work 0; Work 0; Work 0; Work 0] sys in
  sys_state sys' = (@addWatchForKind Toy.types C (sys_state sys) Toy.three).1 /\
  sys_workers sys' !! 0%nat
    = Some (Returned (@addWatchForKind Toy.types C (sys_state sys) Toy.three).2) /\
  sys_mutex sys' = false /\
  forall j, j <> 0%nat -> sys_workers sys' !! j = sys_workers sys !! j.
Proof.
  intros C sys.
  exact (@X15_alone_a_worker_runs_addWatchForKind Toy.types C sys 0%nat Toy.three
           eq_refl eq_refl).
Defined.



Lemma X18_witness :
  occursIn "403 Forbidden"
    (cond_Message
       (@readyCondition Toy.types Toy.three
          (Some (Multi [Toy.unreachable; Toy.forbidden])))).
Proof.
  apply (@X18_message_carries_every_failure Toy.types Toy.three
           [Toy.unreachable; Toy.forbidden] Toy.forbidden).
  apply list_elem_of_further, list_elem_of_here.
Defined.

Lemma X19_witness :
  let C := Toy.cluster (Toy.calm Toy.kindless) in
  let out := @Reconcile Toy.types C Toy.start Toy.request in
  let e := Errorf "unknown kind" in
  exists r,
    trace out.1.1
      = trace Toy.start
          ++ [EvGet Toy.request None; EvPatch (reported Toy.kindless (Some (Plain e))) r] /\
    watchedKinds out.1.1 = watchedKinds Toy.start /\
    status_HandlerStatus (oh_Status (reported Toy.kindless (Some (Plain e))))
      = status_HandlerStatus (oh_Status Toy.kindless) /\
    FindStatusCondition
      (status_Conditions (oh_Status (reported Toy.kindless (Some (Plain e))))) "Ready"
      = Some {| cond_Type := "Ready";
                cond_Status := ConditionFalse;
                cond_ObservedGeneration := oh_Generation Toy.kindless;
                cond_Reason := "Error";
                cond_Message := perr_msg e |}.
Proof.
  intros C out e.
  exact (@X19_unresolved_kind Toy.types C Toy.start Toy.request 1%nat Toy.kindless e
           eq_refl eq_refl).
Defined.

Lemma X20_witness :
  let C := Toy.cluster (Toy.calm (Toy.instance "" [] [Toy.record "comment:old" "boom"])) in
  let sr := Toy.instance "" [] [Toy.record "comment:old" "boom"] in
  let out := @doReconcile Toy.types C Toy.start sr in
  status_HandlerStatus (oh_Status out.1.2) = [] /\
  out.2 = None /\
  trace out.1.1
    = [EvWatch Toy.deployment None;
       EvGetObject Toy.deployment (@targetName Toy.types sr) None].
Proof.
  intros C sr out. unfold out.
  rewrite (@X20_no_handlers_prunes_everything Toy.types C Toy.start sr
             (@addWatchForKind Toy.types C Toy.start sr).1 Toy.deployment 2%nat
             ("app" : @Object Toy.types) eq_refl eq_refl eq_refl eq_refl).
  by split_and!.
Defined.

Lemma X21_witness :
  let C := Toy.cluster (Toy.flakyAt 3 Toy.twins) in
  let out := @doReconcile Toy.types C Toy.start Toy.twins in
  completedLoop out.2 /\
  exists outs,
    length outs = length (spec_Handlers (oh_Spec Toy.twins)) /\
    handled (trace out.1.1)
      = handled (trace Toy.start)
          ++ zip (@BuildKey _ C <$> spec_Handlers (oh_Spec Toy.twins)) outs /\
    forall i spec o,
      spec_Handlers (oh_Spec Toy.twins) !! i = Some spec ->
      outs !! i = Some o ->
      @BuildKey _ C spec ∉ (@BuildKey _ C <$> drop (S i) (spec_Handlers (oh_Spec Toy.twins))) ->
      exists x,
        findStatus (@BuildKey _ C spec) (status_HandlerStatus (oh_Status out.1.2)) = Some x /\
        hs_Error x = errorText o.
Proof.
  intros C out.
  assert (Hc : completedLoop out.2) by (vm_compute; exact I).
  split; [exact Hc|].
  exact (@X21_last_handler_of_a_key_wins Toy.types C Toy.start Toy.twins
           out.1.1 out.1.2 out.2 (Toy_KeepsKey _) (triple_eta out) Hc).
Defined.

Lemma X22_witness :
  let C := Toy.cluster (Toy.flakyAt 3 Toy.twins) in
  let out := @doReconcile Toy.types C Toy.start Toy.twins in
  completedLoop out.2 /\
  hs_Key <$> status_HandlerStatus (oh_Status out.1.2) = ["comment:mr"] /\
  NoDup (hs_Key <$> status_HandlerStatus (oh_Status out.1.2)).
Proof.
  intros C out.
  assert (Hc : completedLoop out.2) by (vm_compute; exact I).
  destruct (@X22_first_pass_builds_the_records Toy.types C Toy.start Toy.twins
              out.1.1 out.1.2 out.2 (Toy_KeepsKey _) eq_refl (triple_eta out) Hc)
    as (Hkeys & Hnd & _).
  split; [exact Hc|]. split; [|exact Hnd].
  rewrite Hkeys. vm_compute. reflexivity.
Defined.
